(** * Aliyun-CDN-MCP: input normalisers and the natural-language extractor

    A shallow embedding of [src/main.py]: the three shorthand parsers
    ([parse_source_info], [parse_cache_rule], [parse_header]), the two
    operations the extractor drives ([add_cdn_domain], [set_cdn_cache]) and
    the extractor itself ([setup_cdn_with_text]).

    Python values are modelled as the program uses them:
    - a [str] is a list of Unicode code points;
    - an [int] is a [Z];
    - an exception is an explicit [Raise] result;
    - the provider client is an oracle, and every request handed to it is
      appended to a log that is threaded through the computation. *)

From Stdlib Require Import String List ZArith NArith Lia Bool.
From Stdlib Require Ascii Decimal DecimalPos.
Import ListNotations.

Local Open Scope N_scope.

(** ** Python strings *)

Definition char := N.
Definition str := list char.

(** String literals of the source are written as Rocq strings (UTF-8 bytes)
    and decoded to code points. *)
Fixpoint utf8_from (acc : N) (more : nat) (s : String.string) : str :=
  match s with
  | String.EmptyString => []
  | String.String a s' =>
      let b := Ascii.N_of_ascii a in
      match more with
      | O =>
          if b <? 0x80 then b :: utf8_from 0 0 s'
          else if b <? 0xE0 then utf8_from (b - 0xC0) 1 s'
          else if b <? 0xF0 then utf8_from (b - 0xE0) 2 s'
          else utf8_from (b - 0xF0) 3 s'
      | S m =>
          let acc' := acc * 64 + (b - 0x80) in
          match m with
          | O => acc' :: utf8_from 0 0 s'
          | S _ => utf8_from acc' m s'
          end
      end
  end.

Definition utf8 (s : String.string) : str := utf8_from 0 0 s.

Arguments utf8 s%_string.

Definition COLON : char := 58.
Definition COMMA : char := 44.
Definition NEWLINE : char := 10.
Definition DOT : char := 46.
Definition SLASH : char := 47.
Definition PLUS : char := 43.
Definition MINUS : char := 45.
Definition UNDERSCORE : char := 95.
Definition SPACE : char := 32.

(** [s.startswith(p)] *)
Fixpoint startswith (p s : str) : bool :=
  match p, s with
  | [], _ => true
  | _ :: _, [] => false
  | a :: p', b :: s' => (a =? b) && startswith p' s'
  end.

(** [p in s] on strings: [p] occurs as a contiguous substring of [s]. *)
Fixpoint contains (p s : str) : bool :=
  startswith p s ||
  match s with
  | [] => false
  | _ :: s' => contains p s'
  end.

(** [s.split(sep)] for a separator of one character, which is the only way
    the source calls it.  The result is never empty. *)
Fixpoint split (sep : char) (s : str) : list str :=
  match s with
  | [] => [[]]
  | c :: s' =>
      if c =? sep then [] :: split sep s'
      else match split sep s' with
           | [] => [[c]]
           | p :: ps => (c :: p) :: ps
           end
  end.

(** [s.replace(old, new)] for a non-empty [old]: occurrences are found from
    the left and do not overlap.  [skip] counts the characters of the
    occurrence just replaced that are still to be passed over. *)
Fixpoint replace_from (old new : str) (skip : nat) (s : str) : str :=
  match s with
  | [] => []
  | c :: s' =>
      match skip with
      | S k => replace_from old new k s'
      | O =>
          if startswith old s
          then new ++ replace_from old new (pred (List.length old)) s'
          else c :: replace_from old new 0 s'
      end
  end.

Definition replace (old new s : str) : str := replace_from old new 0 s.

Fixpoint dropwhile (p : char -> bool) (s : str) : str :=
  match s with
  | [] => []
  | c :: s' => if p c then dropwhile p s' else s
  end.

Fixpoint takewhile (p : char -> bool) (s : str) : str :=
  match s with
  | [] => []
  | c :: s' => if p c then c :: takewhile p s' else []
  end.

(** ** The Python runtime

    What the program's library calls depend on and the repository does not
    fix: the interpreter's Unicode database (which code points are
    whitespace for [str.strip], which are decimal digits for [\d] and
    [int]) and the limit on int/str conversions
    ([sys.get_int_max_str_digits()], 0 meaning no limit).  Every runtime
    agrees with ASCII below 128. *)

Definition ascii_isspace (c : char) : bool :=
  ((9 <=? c) && (c <=? 13)) || ((28 <=? c) && (c <=? 32)).

Definition ascii_decimal (c : char) : option N :=
  if (48 <=? c) && (c <=? 57) then Some (c - 48) else None.

Class Runtime := {
  isspace : char -> bool;
  decimal : char -> option N;
  max_str_digits : nat;
  isspace_ascii : forall c, c < 128 -> isspace c = ascii_isspace c;
  decimal_ascii : forall c, c < 128 -> decimal c = ascii_decimal c;
  decimal_lt_10 : forall c d, decimal c = Some d -> d < 10;
  decimal_not_space : forall c d, decimal c = Some d -> isspace c = false
}.

Lemma ascii_decimal_bounds c d :
  ascii_decimal c = Some d -> 48 <= c /\ c <= 57 /\ d = c - 48.
Proof.
  unfold ascii_decimal. destruct ((48 <=? c) && (c <=? 57)) eqn:E;
    [|discriminate].
  intros [= <-]. apply andb_true_iff in E as [E1 E2].
  apply N.leb_le in E1, E2. auto.
Qed.

(** CPython 3.11 (Unicode 14.0.0) with its default limit of 4300 digits. *)
Module CPython311.

Definition space_table : list (N * N) :=
  [ (0x85, 0x85); (0xA0, 0xA0); (0x1680, 0x1680); (0x2000, 0x200A);
    (0x2028, 0x2029); (0x202F, 0x202F); (0x205F, 0x205F);
    (0x3000, 0x3000) ].

(** The code point of digit zero of every decimal-digit block. *)
Definition zero_table : list N :=
  [ 0x660; 0x6F0; 0x7C0; 0x966; 0x9E6; 0xA66; 0xAE6; 0xB66; 0xBE6; 0xC66;
    0xCE6; 0xD66; 0xDE6; 0xE50; 0xED0; 0xF20; 0x1040; 0x1090; 0x17E0;
    0x1810; 0x1946; 0x19D0; 0x1A80; 0x1A90; 0x1B50; 0x1BB0; 0x1C40;
    0x1C50; 0xA620; 0xA8D0; 0xA900; 0xA9D0; 0xA9F0; 0xAA50; 0xABF0;
    0xFF10; 0x104A0; 0x10D30; 0x11066; 0x110F0; 0x11136; 0x111D0;
    0x112F0; 0x11450; 0x114D0; 0x11650; 0x116C0; 0x11730; 0x118E0;
    0x11950; 0x11C50; 0x11D50; 0x11DA0; 0x16A60; 0x16AC0; 0x16B50;
    0x1D7CE; 0x1D7D8; 0x1D7E2; 0x1D7EC; 0x1D7F6; 0x1E140; 0x1E2F0;
    0x1E950; 0x1FBF0 ].

Definition in_range (c : char) (r : N * N) : bool :=
  (fst r <=? c) && (c <=? snd r).

Definition isspace (c : char) : bool :=
  if c <? 128 then ascii_isspace c else existsb (in_range c) space_table.

Fixpoint lookup_zero (c : char) (zs : list N) : option N :=
  match zs with
  | [] => None
  | z :: zs' =>
      if (z <=? c) && (c <=? z + 9) then Some (c - z) else lookup_zero c zs'
  end.

Definition decimal (c : char) : option N :=
  if c <? 128 then ascii_decimal c else lookup_zero c zero_table.

Definition max_str_digits : nat := 4300.

Lemma isspace_ascii c : c < 128 -> isspace c = ascii_isspace c.
Proof.
  intros H. unfold isspace. apply N.ltb_lt in H. now rewrite H.
Qed.

Lemma decimal_ascii c : c < 128 -> decimal c = ascii_decimal c.
Proof.
  intros H. unfold decimal. apply N.ltb_lt in H. now rewrite H.
Qed.

Lemma lookup_zero_In c zs d :
  lookup_zero c zs = Some d ->
  exists z, In z zs /\ z <= c /\ c <= z + 9 /\ d = c - z.
Proof.
  induction zs as [|z zs IH]; simpl; [discriminate|].
  destruct ((z <=? c) && (c <=? z + 9)) eqn:E.
  - intros [= <-]. apply andb_true_iff in E as [E1 E2].
    apply N.leb_le in E1, E2. exists z. auto.
  - intros H. destruct (IH H) as (z' & Hin & Hz). exists z'. auto.
Qed.

Lemma decimal_lt_10 c d : decimal c = Some d -> d < 10.
Proof.
  unfold decimal. destruct (c <? 128).
  - intros H. apply ascii_decimal_bounds in H. lia.
  - intros H. apply lookup_zero_In in H as (z & _ & H1 & H2 & ->). lia.
Qed.

(** No decimal-digit block meets a whitespace range. *)
Definition apart (z : N) (r : N * N) : bool :=
  (z + 9 <? fst r) || (snd r <? z).

Lemma tables_apart :
  forallb (fun z => forallb (apart z) space_table) zero_table = true.
Proof. vm_compute. reflexivity. Qed.

Lemma decimal_not_space c d : decimal c = Some d -> isspace c = false.
Proof.
  unfold decimal, isspace. destruct (c <? 128).
  - intros H. apply ascii_decimal_bounds in H as (H1 & H2 & _).
    unfold ascii_isspace.
    destruct (N.leb_spec 9 c), (N.leb_spec c 13), (N.leb_spec 28 c),
      (N.leb_spec c 32); simpl; try reflexivity; lia.
  - intros H. apply lookup_zero_In in H as (z & Hin & H1 & H2 & _).
    pose proof tables_apart as T.
    rewrite forallb_forall in T. specialize (T z Hin).
    rewrite forallb_forall in T.
    destruct (existsb (in_range c) space_table) eqn:E; [|reflexivity].
    apply existsb_exists in E as (r & Hr & Hc).
    specialize (T r Hr). unfold apart in T. unfold in_range in Hc.
    apply andb_true_iff in Hc as [Hc1 Hc2].
    apply N.leb_le in Hc1, Hc2.
    apply orb_true_iff in T as [T|T]; apply N.ltb_lt in T; lia.
Qed.

End CPython311.

Definition cpython311 : Runtime :=
  {| isspace := CPython311.isspace;
     decimal := CPython311.decimal;
     max_str_digits := CPython311.max_str_digits;
     isspace_ascii := CPython311.isspace_ascii;
     decimal_ascii := CPython311.decimal_ascii;
     decimal_lt_10 := CPython311.decimal_lt_10;
     decimal_not_space := CPython311.decimal_not_space |}.

(** ** Exceptions *)

Inductive exn : Set :=
  | ValueError      (* wrong number of parts, malformed integer, bad type *)
  | IndexError      (* [xs[0]] on an empty list *)
  | ServiceFailure. (* whatever the provider client raises *)

Inductive result (A : Type) : Type :=
  | Ok (a : A)
  | Raise (e : exn).

Arguments Ok {A} a.
Arguments Raise {A} e.

Definition bind {A B} (r : result A) (k : A -> result B) : result B :=
  match r with
  | Ok a => k a
  | Raise e => Raise e
  end.

Declare Scope result_scope.
Delimit Scope result_scope with result.
Notation "x <- e ;; k" := (bind e (fun x => k))
  (at level 61, e at next level, right associativity) : result_scope.
Local Open Scope result_scope.

(** [xs[0]] *)
Definition item0 {A} (xs : list A) : result A :=
  match xs with
  | x :: _ => Ok x
  | [] => Raise IndexError
  end.

(** ** Library functions that depend on the runtime *)

Section Library.

Context {R : Runtime}.

(** [\d] of [re] on [str] patterns: a Unicode decimal digit. *)
Definition isdecimal (c : char) : bool :=
  match decimal c with
  | Some _ => true
  | None => false
  end.

(** [s.strip()] *)
Definition lstrip (s : str) : str := dropwhile isspace s.
Definition rstrip (s : str) : str := rev (dropwhile isspace (rev s)).
Definition strip (s : str) : str := rstrip (lstrip s).

(** *** [int(s)] for a [str]

    CPython first rewrites the string to ASCII: characters below 127 are
    kept, other whitespace becomes a space, other decimal digits become
    their ASCII digit and anything else becomes [?] (which no later step
    accepts).  The ASCII text is then read as: C whitespace, an optional
    sign, decimal digits that single underscores may separate, C
    whitespace, end of text. *)
Definition to_ascii (c : char) : char :=
  if c <? 127 then c
  else if isspace c then SPACE
  else match decimal c with
       | Some d => 48 + d
       | None => 63
       end.

Definition c_isspace (c : char) : bool :=
  ((9 <=? c) && (c <=? 13)) || (c =? SPACE).

Definition is_ascii_digit (c : char) : bool := (48 <=? c) && (c <=? 57).

(** The digits after a first digit: value so far, digits so far, text. *)
Fixpoint int_body (acc : N) (cnt : nat) (s : str) : option (N * nat * str) :=
  match s with
  | [] => Some (acc, cnt, [])
  | c :: t =>
      if is_ascii_digit c then int_body (10 * acc + (c - 48)) (S cnt) t
      else if c =? UNDERSCORE then
        match t with
        | d :: t' =>
            if is_ascii_digit d
            then int_body (10 * acc + (d - 48)) (S cnt) t'
            else None
        | [] => None
        end
      else Some (acc, cnt, s)
  end.

(** The conversion limit applies above 640 digits only. *)
Definition exceeds_limit (digits : nat) : bool :=
  ((640 <? digits) && (0 <? max_str_digits) && (max_str_digits <? digits))%nat.

Definition int_sign (s : str) : bool * str :=
  match s with
  | c :: t =>
      if c =? MINUS then (true, t)
      else if c =? PLUS then (false, t)
      else (false, s)
  | [] => (false, [])
  end.

Definition py_int (s : str) : result Z :=
  let (neg, body) := int_sign (dropwhile c_isspace (map to_ascii s)) in
  match body with
  | c :: t =>
      if is_ascii_digit c then
        match int_body (c - 48) 1 t with
        | Some (v, cnt, rest) =>
            if exceeds_limit cnt then Raise ValueError
            else match dropwhile c_isspace rest with
                 | [] => Ok (if neg then (- Z.of_N v)%Z else Z.of_N v)
                 | _ :: _ => Raise ValueError
                 end
        | None => Raise ValueError
        end
      else Raise ValueError
  | [] => Raise ValueError
  end.

(** *** [str(n)] for an [int], as [f"{n}"] also computes it *)
Fixpoint uint_chars (u : Decimal.uint) : str :=
  match u with
  | Decimal.Nil => []
  | Decimal.D0 u' => 48 :: uint_chars u'
  | Decimal.D1 u' => 49 :: uint_chars u'
  | Decimal.D2 u' => 50 :: uint_chars u'
  | Decimal.D3 u' => 51 :: uint_chars u'
  | Decimal.D4 u' => 52 :: uint_chars u'
  | Decimal.D5 u' => 53 :: uint_chars u'
  | Decimal.D6 u' => 54 :: uint_chars u'
  | Decimal.D7 u' => 55 :: uint_chars u'
  | Decimal.D8 u' => 56 :: uint_chars u'
  | Decimal.D9 u' => 57 :: uint_chars u'
  end.

Definition py_str_int (n : Z) : result str :=
  match Z.to_int n with
  | Decimal.Pos u =>
      let ds := uint_chars u in
      if exceeds_limit (List.length ds) then Raise ValueError else Ok ds
  | Decimal.Neg u =>
      let ds := uint_chars u in
      if exceeds_limit (List.length ds) then Raise ValueError
      else Ok (MINUS :: ds)
  end.

(** *** The three regular expressions of the source

    No digit is a dot or a newline, so the greedy repetitions never have
    to give characters back and each pattern is matched left to right. *)

Definition starts_with_digit (s : str) : bool :=
  match s with
  | c :: _ => isdecimal c
  | [] => false
  end.

(** [re.findall(r'\d+', s)]: the maximal runs of digits, in order. *)
Fixpoint findall_digits (s : str) : list str :=
  match s with
  | [] => []
  | c :: t =>
      let rs := findall_digits t in
      if isdecimal c then
        if starts_with_digit t then
          match rs with
          | r :: rs' => (c :: r) :: rs'
          | [] => [[c]]
          end
        else [c] :: rs
      else rs
  end.

(** [\d+] at the start of [s]: the run and what follows it. *)
Definition digits1 (s : str) : option (str * str) :=
  match takewhile isdecimal s with
  | [] => None
  | ds => Some (ds, dropwhile isdecimal s)
  end.

(** [\.] followed by [\d+] at the start of [s]. *)
Definition dot_digits1 (s : str) : option (str * str) :=
  match s with
  | c :: t =>
      if c =? DOT then
        match digits1 t with
        | Some (ds, rest) => Some (DOT :: ds, rest)
        | None => None
        end
      else None
  | [] => None
  end.

(** [\d+\.\d+\.\d+\.\d+] at the start of [s]: the matched text. *)
Definition match_quad (s : str) : option str :=
  match digits1 s with
  | Some (a, r1) =>
      match dot_digits1 r1 with
      | Some (b, r2) =>
          match dot_digits1 r2 with
          | Some (c, r3) =>
              match dot_digits1 r3 with
              | Some (d, _) => Some (a ++ b ++ c ++ d)
              | None => None
              end
          | None => None
          end
      | None => None
      end
  | None => None
  end.

(** [re.findall(r'\d+\.\d+\.\d+\.\d+', s)]: matches are found from the
    left and do not overlap; [skip] as in [replace_from]. *)
Fixpoint findall_quad_from (skip : nat) (s : str) : list str :=
  match s with
  | [] => []
  | _ :: t =>
      match skip with
      | S k => findall_quad_from k t
      | O =>
          match match_quad s with
          | Some m => m :: findall_quad_from (pred (List.length m)) t
          | None => findall_quad_from 0 t
          end
      end
  end.

Definition findall_quad (s : str) : list str := findall_quad_from 0 s.

(** [\d{1,3}] at the start of [s]: what follows the group. *)
Definition digits_1_3 (s : str) : option str :=
  match s with
  | a :: t =>
      if isdecimal a then
        match t with
        | b :: t' =>
            if isdecimal b then
              match t' with
              | c :: t'' => if isdecimal c then Some t'' else Some t'
              | [] => Some t'
              end
            else Some t
        | [] => Some t
        end
      else None
  | [] => None
  end.

Definition dot_digits_1_3 (s : str) : option str :=
  match s with
  | c :: t => if c =? DOT then digits_1_3 t else None
  | [] => None
  end.

(** [$] without [re.MULTILINE]: the end of the string, or the position
    before a newline that ends the string. *)
Definition at_dollar (s : str) : bool :=
  match s with
  | [] => true
  | [c] => c =? NEWLINE
  | _ => false
  end.

(** [bool(re.match(r"^\d{1,3}(\.\d{1,3}){3}$", s))] *)
Definition match_ip (s : str) : bool :=
  match digits_1_3 s with
  | Some r1 =>
      match dot_digits_1_3 r1 with
      | Some r2 =>
          match dot_digits_1_3 r2 with
          | Some r3 =>
              match dot_digits_1_3 r3 with
              | Some r4 => at_dollar r4
              | None => false
              end
          | None => false
          end
      | None => false
      end
  | None => false
  end.

End Library.

(** ** The program *)

(** String literals of [src/main.py]. *)
Definition OSS_PREFIX : str := Eval cbv in utf8 "oss://".
Definition OSS : str := Eval cbv in utf8 "oss".
Definition IPADDR : str := Eval cbv in utf8 "ipaddr".
Definition DOMAIN : str := Eval cbv in utf8 "domain".
Definition WEB : str := Eval cbv in utf8 "web".
Definition DOWNLOAD : str := Eval cbv in utf8 "download".
Definition VIDEO : str := Eval cbv in utf8 "video".
Definition LIVE : str := Eval cbv in utf8 "live".
Definition TTL : str := Eval cbv in utf8 "ttl".
Definition PATH : str := Eval cbv in utf8 "path".
Definition CACHE_TTL : str := Eval cbv in utf8 "cache_ttl".

Definition M_DOMAIN_SUFFIX : str := Eval cbv in utf8 ".xiangyuncdn.com".
Definition M_CDN_TYPE : str := Eval cbv in utf8 "加速类型".
Definition M_BIG_FILE : str := Eval cbv in utf8 "大文件下载".
Definition M_IMAGE_SMALL_FILE : str := Eval cbv in utf8 "图片小文件".
Definition M_SMALL_FILE : str := Eval cbv in utf8 "小文件".
Definition M_AUDIO_VIDEO : str := Eval cbv in utf8 "视音频".
Definition M_LIVE : str := Eval cbv in utf8 "直播".
Definition M_SOURCE_TYPE : str := Eval cbv in utf8 "源站类型".
Definition M_IP : str := Eval cbv in utf8 "IP地址".
Definition M_PORT : str := Eval cbv in utf8 "端口".
Definition M_CACHE : str := Eval cbv in utf8 "缓存".
Definition M_IMAGE : str := Eval cbv in utf8 "图片".
Definition M_VIDEO : str := Eval cbv in utf8 "视频".
Definition M_HOUR : str := Eval cbv in utf8 "小时".
Definition M_DAY : str := Eval cbv in utf8 "天".

Definition IMAGE_PATTERN : str := Eval cbv in utf8 "*.jpg,*.jpeg,*.png,*.gif".
Definition VIDEO_PATTERN : str := Eval cbv in utf8 "*.mp4,*.flv,*.m3u8".
Definition ANY_PATTERN : str := Eval cbv in utf8 "*".

Definition MSG_NO_DOMAIN : str := Eval cbv in utf8 "未能在文本中找到域名信息".
Definition MSG_DOMAIN : str := Eval cbv in utf8 "域名 ".
Definition MSG_ADDED : str := Eval cbv in utf8 " 添加成功".
Definition MSG_CACHE_SET : str := Eval cbv in utf8 " 缓存策略设置成功".
Definition MSG_DONE : str := Eval cbv in (utf8 "已完成CDN配置：" ++ [NEWLINE]).

(** *** Records *)

(** An origin: [{"type": ..., "content": ..., "port": ...}].  [content] is
    [None] when the extractor saw no address. *)
Record SourceInfo := {
  type : str;
  content : option str;
  port : Z
}.

(** [{"path_pattern": ..., "ttl": ...}] *)
Record CacheRule := {
  path_pattern : str;
  ttl : Z
}.

(** [{"key": ..., "value": ...}] *)
Record Header := {
  key : str;
  value : str
}.

(** The arguments of the parsers: a shorthand string, a record that is
    passed through, or a value of another type. *)
Inductive SourceArg := SourceStr (s : str) | SourceDict (d : SourceInfo) | SourceOther.
Inductive RuleArg := RuleStr (s : str) | RuleDict (d : CacheRule) | RuleOther.
Inductive HeaderArg := HeaderStr (s : str) | HeaderDict (d : Header) | HeaderOther.

(** [Union[str, List[Union[str, Dict]]]], a single record included. *)
Inductive SourcesArg :=
  | OneSourceStr (s : str)
  | OneSourceDict (d : SourceInfo)
  | SourceList (l : list SourceArg).

Inductive RulesArg :=
  | OneRuleStr (s : str)
  | OneRuleDict (d : CacheRule)
  | RuleList (l : list RuleArg).

(** *** Requests and the provider client

    [sources] and [functions] are kept structured; the code sends their
    [str(...)] and [json.dumps(...)] renderings. *)
Record AddCdnDomainRequest := {
  add_domain_name : str;
  add_sources : list SourceInfo;
  add_cdn_type : str
}.

Record FunctionArg := {
  argName : str;
  argValue : str
}.

Record FunctionConfig := {
  functionArgs : list FunctionArg;
  functionName : str
}.

Record BatchSetCdnDomainConfigRequest := {
  domain_names : str;
  functions : list FunctionConfig
}.

Inductive Call :=
  | AddCdnDomain (request : AddCdnDomainRequest)
  | BatchSetCdnDomainConfig (request : BatchSetCdnDomainConfigRequest).

(** A computation that may call the provider: it extends the log of calls
    and returns or raises. *)
Definition M (A : Type) : Type := list Call -> result A * list Call.

Definition ret {A} (a : A) : M A := fun log => (Ok a, log).

Definition lift {A} (r : result A) : M A := fun log => (r, log).

Definition bindM {A B} (m : M A) (k : A -> M B) : M B :=
  fun log =>
    match m log with
    | (Ok a, log') => k a log'
    | (Raise e, log') => (Raise e, log')
    end.

Declare Scope M_scope.
Delimit Scope M_scope with M.
Notation "x <- e ;; k" := (bindM e (fun x => k))
  (at level 61, e at next level, right associativity) : M_scope.

(** [[f(x) for x in xs]] *)
Fixpoint map_result {A B} (f : A -> result B) (xs : list A) : result (list B) :=
  match xs with
  | [] => Ok []
  | x :: xs' =>
      y <- f x ;;
      ys <- map_result f xs' ;;
      Ok (y :: ys)
  end.

(** Python's [x or default]. *)
Definition or_str (x : option str) (default : str) : str :=
  match x with
  | Some (c :: s) => c :: s
  | _ => default
  end.

Definition or_int (x : option Z) (default : Z) : Z :=
  match x with
  | Some 0%Z | None => default
  | Some n => n
  end.

(** The local variables of [setup_cdn_with_text]. *)
Record Draft := {
  domain_name : option str;
  cdn_type : option str;
  source_type : option str;
  source_ip : option str;
  source_port : option Z;
  cache_rules : list str
}.

Definition empty_draft : Draft :=
  {| domain_name := None; cdn_type := None; source_type := None;
     source_ip := None; source_port := None; cache_rules := [] |}.

Definition set_domain_name (v : str) (d : Draft) : Draft :=
  {| domain_name := Some v; cdn_type := cdn_type d;
     source_type := source_type d; source_ip := source_ip d;
     source_port := source_port d; cache_rules := cache_rules d |}.

Definition set_cdn_type (v : str) (d : Draft) : Draft :=
  {| domain_name := domain_name d; cdn_type := Some v;
     source_type := source_type d; source_ip := source_ip d;
     source_port := source_port d; cache_rules := cache_rules d |}.

Definition set_source_type (v : str) (d : Draft) : Draft :=
  {| domain_name := domain_name d; cdn_type := cdn_type d;
     source_type := Some v; source_ip := source_ip d;
     source_port := source_port d; cache_rules := cache_rules d |}.

Definition set_source_ip (v : str) (d : Draft) : Draft :=
  {| domain_name := domain_name d; cdn_type := cdn_type d;
     source_type := source_type d; source_ip := Some v;
     source_port := source_port d; cache_rules := cache_rules d |}.

Definition set_source_port (v : Z) (d : Draft) : Draft :=
  {| domain_name := domain_name d; cdn_type := cdn_type d;
     source_type := source_type d; source_ip := source_ip d;
     source_port := Some v; cache_rules := cache_rules d |}.

Definition add_cache_rules (vs : list str) (d : Draft) : Draft :=
  {| domain_name := domain_name d; cdn_type := cdn_type d;
     source_type := source_type d; source_ip := source_ip d;
     source_port := source_port d; cache_rules := cache_rules d ++ vs |}.

Section Program.

Context {R : Runtime}.

(** The provider client: given the calls made so far and a request, it
    returns ([true]) or raises ([false]). *)
Variable cdn_client : list Call -> Call -> bool.

Definition call (c : Call) : M unit :=
  fun log =>
    (if cdn_client log c then Ok tt else Raise ServiceFailure, log ++ [c]).

(** *** [parse_source_info] *)
Definition parse_source_info (source : SourceArg) : result SourceInfo :=
  match source with
  | SourceDict d => Ok d
  | SourceStr source =>
      if startswith OSS_PREFIX source then
        Ok {| type := OSS;
              content := Some (replace OSS_PREFIX [] source);
              port := 80 |}
      else
        let parts := split COLON source in
        let content := nth 0 parts [] in
        port <- match parts with
                | _ :: p1 :: _ => py_int p1
                | _ => Ok 80%Z
                end ;;
        let is_ip := match_ip content in
        Ok {| type := if is_ip then IPADDR else DOMAIN;
              content := Some content;
              port := port |}
  | SourceOther => Raise ValueError
  end.

(** *** [parse_cache_rule] *)
Definition parse_cache_rule (rule : RuleArg) : result CacheRule :=
  match rule with
  | RuleDict d => Ok d
  | RuleStr rule =>
      match split COLON rule with
      | [pattern; ttl] =>
          t <- py_int ttl ;;
          Ok {| path_pattern :=
                  if startswith [SLASH] pattern then pattern
                  else SLASH :: pattern;
                ttl := t |}
      | _ => Raise ValueError
      end
  | RuleOther => Raise ValueError
  end.

(** *** [parse_header] *)
Definition parse_header (header : HeaderArg) : result Header :=
  match header with
  | HeaderDict d => Ok d
  | HeaderStr header =>
      match split COLON header with
      | [key; value] => Ok {| key := strip key; value := strip value |}
      | _ => Raise ValueError
      end
  | HeaderOther => Raise ValueError
  end.

(** *** [add_cdn_domain] *)
Definition add_cdn_domain (domain_name : str) (sources : SourcesArg)
    (cdn_type : str) : M str :=
  let sources :=
    match sources with
    | OneSourceStr s => [SourceStr s]
    | OneSourceDict d => [SourceDict d]
    | SourceList l => l
    end in
  (parsed_sources <- lift (map_result parse_source_info sources) ;;
   let request :=
     {| add_domain_name := domain_name;
        add_sources := parsed_sources;
        add_cdn_type := cdn_type |} in
   _ <- call (AddCdnDomain request) ;;
   ret (MSG_DOMAIN ++ domain_name ++ MSG_ADDED))%M.

(** *** [set_cdn_cache] *)
Definition rule_args (rule : CacheRule) : result (list FunctionArg) :=
  v <- py_str_int (ttl rule) ;;
  Ok [ {| argName := TTL; argValue := v |};
       {| argName := PATH; argValue := path_pattern rule |} ].

Definition set_cdn_cache (domain_name : str) (cache_rules : RulesArg)
    : M str :=
  let cache_rules :=
    match cache_rules with
    | OneRuleStr s => [RuleStr s]
    | OneRuleDict d => [RuleDict d]
    | RuleList l => l
    end in
  (parsed_rules <- lift (map_result parse_cache_rule cache_rules) ;;
   function_args <- lift (map_result rule_args parsed_rules) ;;
   let config :=
     {| functionArgs := concat function_args;
        functionName := CACHE_TTL |} in
   let request :=
     {| domain_names := domain_name; functions := [config] |} in
   _ <- call (BatchSetCdnDomainConfig request) ;;
   ret (MSG_DOMAIN ++ domain_name ++ MSG_CACHE_SET))%M.

(** *** [setup_cdn_with_text]: the branches of the loop body *)

Definition on_domain (d : Draft) (line : str) : result Draft :=
  Ok (set_domain_name (strip line) d).

Definition on_cdn_type (d : Draft) (line : str) : result Draft :=
  if contains M_BIG_FILE line then Ok (set_cdn_type DOWNLOAD d)
  else if contains M_IMAGE_SMALL_FILE line || contains M_SMALL_FILE line
  then Ok (set_cdn_type WEB d)
  else if contains M_AUDIO_VIDEO line && contains M_LIVE line
  then Ok (set_cdn_type LIVE d)
  else if contains M_AUDIO_VIDEO line then Ok (set_cdn_type VIDEO d)
  else Ok d.

Definition on_source_type (d : Draft) (line : str) : result Draft :=
  if contains IPADDR line then Ok (set_source_type IPADDR d)
  else if contains DOMAIN line then Ok (set_source_type DOMAIN d)
  else if contains OSS line then Ok (set_source_type OSS d)
  else Ok d.

Definition on_source_ip (d : Draft) (line : str) : result Draft :=
  ip <- item0 (findall_quad line) ;;
  Ok (set_source_ip ip d).

Definition on_source_port (d : Draft) (line : str) : result Draft :=
  digits <- item0 (findall_digits line) ;;
  p <- py_int digits ;;
  Ok (set_source_port p d).

Definition cache_pattern (line : str) : str :=
  if contains M_IMAGE line then IMAGE_PATTERN
  else if contains M_VIDEO line then VIDEO_PATTERN
  else ANY_PATTERN.

Definition cache_hours (line : str) : result Z :=
  if contains M_HOUR line then
    digits <- item0 (findall_digits line) ;;
    py_int digits
  else if contains M_DAY line then
    digits <- item0 (findall_digits line) ;;
    n <- py_int digits ;;
    Ok (n * 24)%Z
  else Ok 1%Z.

(** [f"{ext}:{ttl}"] *)
Definition cache_rule_string (ttl : Z) (ext : str) : result str :=
  t <- py_str_int ttl ;;
  Ok (ext ++ COLON :: t).

Definition on_cache (d : Draft) (line : str) : result Draft :=
  let pattern := cache_pattern line in
  hours <- cache_hours line ;;
  let ttl := (hours * 3600)%Z in
  rules <- map_result (cache_rule_string ttl) (split COMMA pattern) ;;
  Ok (add_cache_rules rules d).

(** The body of [for line in lines]. *)
Definition process_line (d : Draft) (line : str) : result Draft :=
  if contains M_DOMAIN_SUFFIX line then on_domain d line
  else if contains M_CDN_TYPE line then on_cdn_type d line
  else if contains M_SOURCE_TYPE line then on_source_type d line
  else if contains M_IP line then on_source_ip d line
  else if contains M_PORT line then on_source_port d line
  else if contains M_CACHE line then on_cache d line
  else Ok d.

Fixpoint scan (d : Draft) (lines : list str) : result Draft :=
  match lines with
  | [] => Ok d
  | line :: lines' =>
      d' <- process_line d line ;;
      scan d' lines'
  end.

(** [[line.strip() for line in text.split('\n') if line.strip()]] *)
Definition lines_of (text : str) : list str :=
  map strip
    (filter (fun line => negb (Nat.eqb (List.length (strip line)) 0))
       (split NEWLINE text)).

Definition build_source (d : Draft) : SourceInfo :=
  {| type := or_str (source_type d) IPADDR;
     content := source_ip d;
     port := or_int (source_port d) 80 |}.

Definition setup_cdn_with_text (text : str) : M str :=
  let lines := lines_of text in
  (d <- lift (scan empty_draft lines) ;;
   match domain_name d with
   | Some (c :: n) =>
       let domain_name := c :: n in
       let source := build_source d in
       result <- add_cdn_domain domain_name (OneSourceDict source)
                   (or_str (cdn_type d) WEB) ;;
       _ <- match cache_rules d with
            | [] => ret tt
            | rules =>
                _ <- set_cdn_cache domain_name
                       (RuleList (map RuleStr rules)) ;;
                ret tt
            end ;;
       ret (MSG_DONE ++ result)
   | _ => ret MSG_NO_DOMAIN
   end)%M.

End Program.

(** ** The other batch operations *)

Definition PORT : str := Eval cbv in utf8 "port".
Definition ORIGIN_PORT : str := Eval cbv in utf8 "origin_port".
Definition KEY : str := Eval cbv in utf8 "key".
Definition VALUE : str := Eval cbv in utf8 "value".
Definition CUSTOM_RESPONSE_HEADER : str :=
  Eval cbv in utf8 "custom_response_header".

Definition MSG_PORT_SET : str := Eval cbv in utf8 " 回源端口设置成功".
Definition MSG_HEADERS_SET : str := Eval cbv in utf8 " HTTP响应头设置成功".

Inductive HeadersArg :=
  | OneHeaderStr (s : str)
  | OneHeaderDict (d : Header)
  | HeaderList (l : list HeaderArg).

Section Operations.

Context {R : Runtime}.

Variable cdn_client : list Call -> Call -> bool.

(** [BatchSetCdnDomainConfigRequest(domain_names=..., functions=
    json.dumps([config]))] handed to the client. *)
Definition batch_set (domain_name : str) (config : FunctionConfig) : M unit :=
  call cdn_client
    (BatchSetCdnDomainConfig
       {| domain_names := domain_name; functions := [config] |}).

(** *** [set_cdn_source_port] *)
Definition set_cdn_source_port (domain_name : str) (port : Z) : M str :=
  (v <- lift (py_str_int port) ;;
   let config :=
     {| functionArgs := [ {| argName := PORT; argValue := v |} ];
        functionName := ORIGIN_PORT |} in
   _ <- batch_set domain_name config ;;
   ret (MSG_DOMAIN ++ domain_name ++ MSG_PORT_SET))%M.



(** *** [set_cdn_headers] *)
Definition header_args (header : Header) : list FunctionArg :=
  [ {| argName := KEY; argValue := key header |};
    {| argName := VALUE; argValue := value header |} ].

Definition set_cdn_headers (domain_name : str) (headers : HeadersArg)
    : M str :=
  let headers :=
    match headers with
    | OneHeaderStr s => [HeaderStr s]
    | OneHeaderDict d => [HeaderDict d]
    | HeaderList l => l
    end in
  (parsed_headers <- lift (map_result parse_header headers) ;;
   let config :=
     {| functionArgs := concat (map header_args parsed_headers);
        functionName := CUSTOM_RESPONSE_HEADER |} in
   _ <- batch_set domain_name config ;;
   ret (MSG_DOMAIN ++ domain_name ++ MSG_HEADERS_SET))%M.

End Operations.

(** * Vocabulary of the specification *)

(** The categories of a line, and their markers in the order of priority. *)
Inductive Category :=
  | DomainSuffix
  | AccelerationType
  | OriginType
  | IPAddress
  | PortNumber
  | Cache.

Definition categories : list (Category * str) :=
  [ (DomainSuffix, M_DOMAIN_SUFFIX);
    (AccelerationType, M_CDN_TYPE);
    (OriginType, M_SOURCE_TYPE);
    (IPAddress, M_IP);
    (PortNumber, M_PORT);
    (Cache, M_CACHE) ].

(** The category of a line: the first one whose marker the line contains. *)
Definition classify (line : str) : option Category :=
  option_map fst (find (fun cm => contains (snd cm) line) categories).

(** What a category may change in the draft. *)
Definition only_changes (c : Category) (d d' : Draft) : Prop :=
  match c with
  | DomainSuffix => exists v, d' = set_domain_name v d
  | AccelerationType => d' = d \/ exists v, d' = set_cdn_type v d
  | OriginType => d' = d \/ exists v, d' = set_source_type v d
  | IPAddress => exists v, d' = set_source_ip v d
  | PortNumber => exists v, d' = set_source_port v d
  | Cache => exists vs, d' = add_cache_rules vs d
  end.

(** The draft has a domain name that is not empty. *)
Definition has_domain_name (d : Draft) : Prop :=
  exists c n, domain_name d = Some (c :: n).

(** The provider of the examples accepts every request. *)
Definition accepting : list Call -> Call -> bool := fun _ _ => true.

(** The number a run of ASCII digits denotes, continuing from [acc]. *)
Definition ascii_value (acc : N) (s : str) : N :=
  fold_left (fun a c => 10 * a + (c - 48)) s acc.

Section Vocabulary.

Context {R : Runtime}.

(** The value of a decimal digit. *)
Definition digit_of (c : char) : N :=
  match decimal c with
  | Some d => d
  | None => 0
  end.

(** The number a run of decimal digits denotes. *)
Definition digits_value (s : str) : N :=
  fold_left (fun a c => 10 * a + digit_of c) s 0.

(** One to three decimal digits. *)
Definition digit_group (g : str) : Prop :=
  (1 <= List.length g <= 3)%nat /\ Forall (fun c => isdecimal c = true) g.

(** Four digit groups separated by dots, and nothing else. *)
Definition dotted_quad (s : str) : Prop :=
  exists a b c d,
    s = a ++ DOT :: b ++ DOT :: c ++ DOT :: d
    /\ digit_group a /\ digit_group b /\ digit_group c /\ digit_group d.

(** A non-empty run of decimal digits. *)
Definition digit_run (g : str) : Prop :=
  g <> [] /\ Forall (fun c => isdecimal c = true) g.

(** Some part of the line is four digit runs separated by dots. *)
Definition has_dotted_quad (line : str) : Prop :=
  exists pre a b c d post,
    line = pre ++ (a ++ DOT :: b ++ DOT :: c ++ DOT :: d) ++ post
    /\ digit_run a /\ digit_run b /\ digit_run c /\ digit_run d.

(** The first run of digits of a line, empty when it has no digit. *)
Definition first_digit_run (line : str) : str :=
  takewhile isdecimal (dropwhile (fun c => negb (isdecimal c)) line).

(** The duration in hours of a cache line whose first digit run reads [h]. *)
Definition duration_hours (line : str) (h : Z) : Z :=
  if contains M_HOUR line then h
  else if contains M_DAY line then (h * 24)%Z
  else 1%Z.

(** The branch of the loop body that handles a category. *)
Definition handle (c : Category) : Draft -> str -> result Draft :=
  match c with
  | DomainSuffix => on_domain
  | AccelerationType => on_cdn_type
  | OriginType => on_source_type
  | IPAddress => on_source_ip
  | PortNumber => on_source_port
  | Cache => on_cache
  end.

End Vocabulary.

(** * Properties *)

(** ** Strings *)

Lemma split_no_sep sep s : ~ In sep s -> split sep s = [s].
Proof.
  induction s as [|c s IH]; simpl; intros H; [reflexivity|].
  destruct (N.eqb_spec c sep) as [->|Hc]; [tauto|].
  rewrite IH by tauto. reflexivity.
Qed.

Lemma split_app sep a b :
  ~ In sep a -> split sep (a ++ sep :: b) = a :: split sep b.
Proof.
  induction a as [|c a IH]; simpl; intros H.
  - now rewrite N.eqb_refl.
  - destruct (N.eqb_spec c sep) as [->|Hc]; [tauto|].
    rewrite IH by tauto. reflexivity.
Qed.

Lemma split_length sep s :
  List.length (split sep s) = S (count_occ N.eq_dec s sep).
Proof.
  induction s as [|c s IH]; simpl; [reflexivity|].
  destruct (N.eqb_spec c sep) as [->|Hc].
  - destruct (N.eq_dec sep sep); [|congruence]. simpl. now rewrite IH.
  - destruct (N.eq_dec c sep); [congruence|].
    destruct (split sep s); simpl in *; congruence.
Qed.

Lemma startswith_app p s : startswith p (p ++ s) = true.
Proof.
  induction p as [|a p IH]; simpl; [reflexivity|].
  now rewrite N.eqb_refl.
Qed.

Lemma startswith_true p s :
  startswith p s = true -> exists r, s = p ++ r.
Proof.
  revert s. induction p as [|a p IH]; intros s; simpl.
  - intros _. now exists s.
  - destruct s as [|b s]; [discriminate|].
    intros H. apply andb_true_iff in H as [H1 H2].
    apply N.eqb_eq in H1 as ->. destruct (IH _ H2) as [r ->]. now exists r.
Qed.

Lemma contains_unfold p s :
  contains p s =
  startswith p s || match s with [] => false | _ :: s' => contains p s' end.
Proof. destruct s; reflexivity. Qed.

(** [contains p s] holds exactly when [p] is a contiguous part of [s]. *)
Lemma contains_true p s :
  contains p s = true <-> exists l r, s = l ++ p ++ r.
Proof.
  split.
  - induction s as [|c s IH]; simpl; intros H.
    + rewrite orb_false_r in H. apply startswith_true in H as [r ->].
      now exists [], r.
    + apply orb_true_iff in H as [H|H].
      * apply startswith_true in H as [r ->]. now exists [], r.
      * destruct (IH H) as (l & r & ->). now exists (c :: l), r.
  - intros (l & r & ->). induction l as [|c l IH]; simpl.
    + now rewrite contains_unfold, startswith_app.
    + rewrite IH. apply orb_true_r.
Qed.

Lemma dropwhile_In p s x : In x (dropwhile p s) -> In x s.
Proof.
  induction s as [|c s IH]; simpl; [tauto|].
  destruct (p c); simpl; tauto.
Qed.

Lemma takewhile_dropwhile p s : takewhile p s ++ dropwhile p s = s.
Proof.
  induction s as [|c s IH]; simpl; [reflexivity|].
  destruct (p c); simpl; congruence.
Qed.

Lemma takewhile_all p s : Forall (fun c => p c = true) (takewhile p s).
Proof.
  induction s as [|c s IH]; simpl; [constructor|].
  destruct (p c) eqn:E; constructor; assumption.
Qed.

(** After an occurrence of [old] at the front, replacement resumes behind
    it. *)
Lemma replace_from_skip old new p s :
  replace_from old new (List.length p) (p ++ s) = replace_from old new 0 s.
Proof.
  induction p as [|c p IH]; simpl.
  - destruct s; reflexivity.
  - exact IH.
Qed.

Lemma replace_front old new s :
  old <> [] -> replace old new (old ++ s) = new ++ replace old new s.
Proof.
  intros Hold. unfold replace. destruct old as [|c old]; [congruence|].
  change ((c :: old) ++ s) with (c :: (old ++ s)).
  cbn [replace_from].
  change (c :: old ++ s) with ((c :: old) ++ s).
  rewrite startswith_app. cbn [List.length pred].
  now rewrite replace_from_skip.
Qed.

(** Without an occurrence of [old], nothing is replaced. *)
Lemma replace_absent old new s :
  contains old s = false -> replace old new s = s.
Proof.
  unfold replace. induction s as [|c s IH]; simpl; [reflexivity|].
  intros H. apply orb_false_iff in H as [H1 H2].
  rewrite H1, IH by assumption. reflexivity.
Qed.

(** ** [int] and [str] *)

Section Conversions.

Context {R : Runtime}.

Lemma isdecimal_ascii c : c < 128 -> isdecimal c = is_ascii_digit c.
Proof.
  intros H. unfold isdecimal, is_ascii_digit.
  rewrite decimal_ascii by assumption. unfold ascii_decimal.
  now destruct ((48 <=? c) && (c <=? 57)).
Qed.

Lemma is_ascii_digit_bounds c :
  is_ascii_digit c = true <-> 48 <= c <= 57.
Proof.
  unfold is_ascii_digit. rewrite andb_true_iff, !N.leb_le. tauto.
Qed.

(** What [to_ascii] makes of a decimal digit. *)
Lemma to_ascii_decimal c d : decimal c = Some d -> to_ascii c = 48 + d.
Proof.
  intros H. unfold to_ascii. destruct (N.ltb_spec c 127) as [Hc|Hc].
  - rewrite decimal_ascii in H by lia.
    apply ascii_decimal_bounds in H. lia.
  - rewrite (decimal_not_space _ _ H), H. reflexivity.
Qed.

(** Only the minus sign itself becomes a minus sign. *)
Lemma to_ascii_minus c : to_ascii c = MINUS -> c = MINUS.
Proof.
  unfold to_ascii, MINUS, SPACE. destruct (c <? 127); [tauto|].
  destruct (isspace c); [discriminate|].
  destruct (decimal c); [lia|discriminate].
Qed.

Lemma int_sign_neg s t : int_sign s = (true, t) -> In MINUS s.
Proof.
  unfold int_sign. destruct s as [|c s]; [discriminate|].
  destruct (N.eqb_spec c MINUS) as [->|_]; [intros _; now left|].
  destruct (c =? PLUS); discriminate.
Qed.

(** [int] raises nothing but [ValueError]. *)
Lemma py_int_raise s e : py_int s = Raise e -> e = ValueError.
Proof.
  unfold py_int.
  destruct (int_sign _) as [neg body].
  destruct body as [|c t]; [congruence|].
  destruct (is_ascii_digit c); [|congruence].
  destruct (int_body _ _ _) as [[[v cnt] rest]|]; [|congruence].
  destruct (exceeds_limit cnt); [congruence|].
  destruct (dropwhile c_isspace rest); congruence.
Qed.

(** Without a minus sign in the text, [int] is not negative. *)
Lemma py_int_nonneg s n : py_int s = Ok n -> ~ In MINUS s -> (0 <= n)%Z.
Proof.
  unfold py_int. intros H Hm.
  destruct (int_sign _) as [neg body] eqn:Es.
  assert (neg = false) as ->.
  { destruct neg; [|reflexivity]. exfalso. apply Hm.
    apply int_sign_neg, dropwhile_In, in_map_iff in Es as (c & Hc & Hin).
    apply to_ascii_minus in Hc. now subst. }
  destruct body as [|c t]; [discriminate|].
  destruct (is_ascii_digit c); [|discriminate].
  destruct (int_body _ _ _) as [[[v cnt] rest]|]; [|discriminate].
  destruct (exceeds_limit cnt); [discriminate|].
  destruct (dropwhile c_isspace rest); [|discriminate].
  injection H as <-. lia.
Qed.

Lemma int_body_digits s acc cnt :
  Forall (fun c => is_ascii_digit c = true) s ->
  int_body acc cnt s = Some (ascii_value acc s, (cnt + List.length s)%nat, []).
Proof.
  intros H. revert acc cnt.
  induction H as [|c s Hc _ IH]; intros acc cnt; simpl.
  - now rewrite Nat.add_0_r.
  - rewrite Hc, IH. now rewrite Nat.add_succ_r.
Qed.

Lemma to_ascii_digit c :
  isdecimal c = true ->
  is_ascii_digit (to_ascii c) = true /\ to_ascii c - 48 = digit_of c.
Proof.
  unfold isdecimal, digit_of. destruct (decimal c) as [d|] eqn:E;
    [|discriminate].
  intros _. rewrite (to_ascii_decimal _ _ E).
  pose proof (decimal_lt_10 _ _ E).
  rewrite is_ascii_digit_bounds. lia.
Qed.

Lemma ascii_value_map s acc :
  Forall (fun c => isdecimal c = true) s ->
  ascii_value acc (map to_ascii s) =
  fold_left (fun a c => 10 * a + digit_of c) s acc.
Proof.
  intros H. revert acc. unfold ascii_value.
  induction H as [|c s Hc _ IH]; intros acc; simpl; [reflexivity|].
  rewrite IH. now destruct (to_ascii_digit _ Hc) as [_ ->].
Qed.

Lemma c_isspace_digit c : is_ascii_digit c = true -> c_isspace c = false.
Proof.
  rewrite is_ascii_digit_bounds. intros H. unfold c_isspace, SPACE.
  destruct (N.leb_spec 9 c), (N.leb_spec c 13), (N.eqb_spec c 32);
    simpl; try reflexivity; lia.
Qed.

(** [int] reads a run of decimal digits as the number it denotes, unless
    the run is longer than the conversion limit allows. *)
Lemma py_int_digits s :
  s <> [] -> Forall (fun c => isdecimal c = true) s ->
  py_int s =
    if exceeds_limit (List.length s) then Raise ValueError
    else Ok (Z.of_N (digits_value s)).
Proof.
  intros Hne H. destruct s as [|c s]; [congruence|].
  inversion H as [|? ? Hc Hs]; subst.
  destruct (to_ascii_digit _ Hc) as [Hd Hv].
  unfold py_int. cbn [map dropwhile].
  rewrite (c_isspace_digit _ Hd).
  assert (int_sign (to_ascii c :: map to_ascii s)
          = (false, to_ascii c :: map to_ascii s)) as ->.
  { unfold int_sign. apply is_ascii_digit_bounds in Hd.
    unfold MINUS, PLUS.
    destruct (N.eqb_spec (to_ascii c) 45); [lia|].
    destruct (N.eqb_spec (to_ascii c) 43); [lia|reflexivity]. }
  rewrite Hd, int_body_digits.
  - rewrite length_map. cbn [Nat.add List.length].
    destruct (exceeds_limit _); [reflexivity|]. cbn [dropwhile].
    rewrite ascii_value_map, Hv by assumption.
    unfold digits_value. cbn [fold_left]. reflexivity.
  - apply Forall_map. eapply Forall_impl; [|exact Hs].
    intros a Ha. now destruct (to_ascii_digit _ Ha).
Qed.

End Conversions.

(** ** The normalisers *)

Lemma count_occ_zero (s : str) c : count_occ N.eq_dec s c = 0%nat -> ~ In c s.
Proof. intros H. now apply count_occ_not_In in H. Qed.

(** A string that splits in two is its two parts around one separator. *)
Lemma split_two_inv sep a b p t :
  split sep (a ++ sep :: b) = [p; t] ->
  a = p /\ b = t /\ ~ In sep a /\ ~ In sep b.
Proof.
  intros H.
  pose proof (split_length sep (a ++ sep :: b)) as L.
  rewrite H, count_occ_app in L. cbn [List.length count_occ] in L.
  destruct (N.eq_dec sep sep); [|congruence].
  assert (Ha : ~ In sep a) by (apply count_occ_zero; unfold str, char in *; lia).
  assert (Hb : ~ In sep b) by (apply count_occ_zero; unfold str, char in *; lia).
  rewrite split_app, split_no_sep in H by assumption.
  injection H as -> ->. auto.
Qed.

Section Normalisers.

Context {R : Runtime}.

(** Any other number of colons than one is refused. *)
Lemma parse_cache_rule_colons rule :
  count_occ N.eq_dec rule COLON <> 1%nat ->
  parse_cache_rule (RuleStr rule) = Raise ValueError.
Proof.
  intros H. unfold parse_cache_rule.
  pose proof (split_length COLON rule) as L.
  destruct (split COLON rule) as [|p [|t [|x l]]]; try reflexivity.
  simpl in L. lia.
Qed.

Lemma parse_header_colons header :
  count_occ N.eq_dec header COLON <> 1%nat ->
  parse_header (HeaderStr header) = Raise ValueError.
Proof.
  intros H. unfold parse_header.
  pose proof (split_length COLON header) as L.
  destruct (split COLON header) as [|p [|t [|x l]]]; try reflexivity.
  simpl in L. lia.
Qed.

(** C1 (amended).  For a shorthand cache rule [pattern:ttl] with exactly
    one colon, [parse_cache_rule] returns the pattern, with a slash put in
    front unless it has one, and [int] of the ttl part; when [int] refuses
    the ttl part the rule is refused with [ValueError].  The returned
    path pattern starts with a slash. *)
Theorem parse_cache_rule_one_colon pattern ttl_part
    (Hp : ~ In COLON pattern) (Ht : ~ In COLON ttl_part) :
  let path := if startswith [SLASH] pattern then pattern
              else SLASH :: pattern in
  parse_cache_rule (RuleStr (pattern ++ COLON :: ttl_part)) =
    match py_int ttl_part with
    | Ok n => Ok {| path_pattern := path; ttl := n |}
    | Raise _ => Raise ValueError
    end
  /\ startswith [SLASH] path = true.
Proof.
  intros path. split.
  - unfold parse_cache_rule.
    rewrite split_app, split_no_sep by assumption.
    destruct (py_int ttl_part) as [n|e] eqn:E; cbn [bind]; [reflexivity|].
    now rewrite (py_int_raise _ _ E).
  - subst path. destruct (startswith [SLASH] pattern) eqn:E; [exact E|].
    cbn [startswith]. now rewrite N.eqb_refl.
Qed.

(** C6 (amended).  The ttl of a cache rule parsed from a shorthand string
    is an integer, negative at most when the ttl part has a minus sign:
    without one it is not negative. *)
Theorem parse_cache_rule_ttl_nonneg pattern ttl_part r
    (Hparse : parse_cache_rule (RuleStr (pattern ++ COLON :: ttl_part))
              = Ok r)
    (Hminus : ~ In MINUS ttl_part) :
  (0 <= ttl r)%Z.
Proof.
  unfold parse_cache_rule in Hparse.
  destruct (split COLON (pattern ++ COLON :: ttl_part))
    as [|p [|t [|x l]]] eqn:E; try discriminate.
  apply split_two_inv in E as (<- & <- & _ & _).
  destruct (py_int ttl_part) as [n|e] eqn:En; [|discriminate].
  cbn [bind] in Hparse. injection Hparse as <-. cbn [ttl].
  eapply py_int_nonneg; eassumption.
Qed.

(** C2 (amended).  For a shorthand header [key:value] with exactly one
    colon, [parse_header] returns the two sides with the surrounding
    whitespace stripped; a string without a colon is refused with
    [ValueError]. *)
Theorem parse_header_one_colon k v
    (Hk : ~ In COLON k) (Hv : ~ In COLON v) :
  parse_header (HeaderStr (k ++ COLON :: v)) =
    Ok {| key := strip k; value := strip v |}
  /\ parse_header (HeaderStr k) = Raise ValueError.
Proof.
  split; unfold parse_header.
  - now rewrite split_app, split_no_sep by assumption.
  - now rewrite split_no_sep by assumption.
Qed.

(** [strip] removes whitespace at both ends and nothing else. *)
Lemma dropwhile_split p s :
  exists l, s = l ++ dropwhile p s /\ Forall (fun c => p c = true) l.
Proof.
  exists (takewhile p s). split.
  - symmetry. apply takewhile_dropwhile.
  - apply takewhile_all.
Qed.

Lemma dropwhile_head p s c t : dropwhile p s = c :: t -> p c = false.
Proof.
  induction s as [|a s IH]; simpl; [discriminate|].
  destruct (p a) eqn:E; [exact IH|]. now intros [= <- _].
Qed.

Lemma dropwhile_keeps_last p x a :
  p a = false -> exists w, dropwhile p (x ++ [a]) = w ++ [a].
Proof.
  intros Ha. induction x as [|b x IH]; simpl.
  - rewrite Ha. now exists [].
  - destruct (p b); [exact IH|]. now exists (b :: x).
Qed.

Lemma strip_spec s :
  exists l r,
    s = l ++ strip s ++ r
    /\ Forall (fun c => isspace c = true) l
    /\ Forall (fun c => isspace c = true) r
    /\ (forall c t, strip s = c :: t -> isspace c = false)
    /\ (forall t c, strip s = t ++ [c] -> isspace c = false).
Proof.
  unfold strip, rstrip, lstrip.
  destruct (dropwhile_split isspace s) as (l & Hl & Fl).
  destruct (dropwhile_split isspace (rev (dropwhile isspace s)))
    as (r & Hr & Fr).
  exists l, (rev r). repeat split.
  - rewrite Hl at 1. f_equal.
    rewrite <- rev_app_distr, <- Hr. now rewrite rev_involutive.
  - exact Fl.
  - now apply Forall_rev.
  - intros c t H.
    destruct (dropwhile isspace s) as [|a u] eqn:E.
    + simpl in H. discriminate.
    + pose proof (dropwhile_head _ _ _ _ E) as Ha.
      destruct (dropwhile_keeps_last isspace (rev u) a Ha) as [w Hw].
      cbn [rev] in H. rewrite Hw, rev_app_distr in H.
      cbn in H. injection H as <- _. exact Ha.
  - intros t c H.
    apply (f_equal (@rev char)) in H.
    rewrite rev_involutive, rev_app_distr in H. simpl in H.
    now apply dropwhile_head in H.
Qed.

End Normalisers.

(** ** The origin normaliser *)

Section Origins.

Context {R : Runtime}.

Lemma isdecimal_dot : isdecimal DOT = false.
Proof. now rewrite isdecimal_ascii. Qed.

Lemma isdecimal_newline : isdecimal NEWLINE = false.
Proof. now rewrite isdecimal_ascii. Qed.

Lemma isdecimal_colon : isdecimal COLON = false.
Proof. now rewrite isdecimal_ascii. Qed.

Lemma digits_1_3_sound s r :
  digits_1_3 s = Some r -> exists g, s = g ++ r /\ digit_group g.
Proof.
  unfold digits_1_3, digit_group.
  destruct s as [|a [|b [|c t]]]; try discriminate.
  - destruct (isdecimal a) eqn:Ea; [|discriminate].
    intros [= <-]. exists [a]. simpl. repeat split; auto.
  - destruct (isdecimal a) eqn:Ea; [|discriminate].
    destruct (isdecimal b) eqn:Eb; intros [= <-].
    + exists [a; b]. simpl. repeat split; auto.
    + exists [a]. simpl. repeat split; auto.
  - destruct (isdecimal a) eqn:Ea; [|discriminate].
    destruct (isdecimal b) eqn:Eb; [|intros [= <-]].
    + destruct (isdecimal c) eqn:Ec; intros [= <-].
      * exists [a; b; c]. simpl. repeat split; auto.
      * exists [a; b]. simpl. repeat split; auto.
    + exists [a]. simpl. repeat split; auto.
Qed.

Lemma digits_1_3_complete g r :
  digit_group g -> starts_with_digit r = false ->
  digits_1_3 (g ++ r) = Some r.
Proof.
  intros [Hlen Hall] Hr. unfold digits_1_3.
  destruct g as [|a [|b [|c [|x g]]]]; simpl in Hlen; try lia;
    repeat match goal with
           | H : Forall _ (_ :: _) |- _ => inversion H; subst; clear H
           end; simpl;
    repeat match goal with
           | H : isdecimal _ = true |- _ => rewrite H; clear H
           end.
  - destruct r as [|b t]; [reflexivity|]. simpl in Hr. now rewrite Hr.
  - destruct r as [|c t]; [reflexivity|]. simpl in Hr. now rewrite Hr.
  - reflexivity.
Qed.

Lemma dot_digits_1_3_sound s r :
  dot_digits_1_3 s = Some r -> exists g, s = DOT :: g ++ r /\ digit_group g.
Proof.
  unfold dot_digits_1_3. destruct s as [|c t]; [discriminate|].
  destruct (N.eqb_spec c DOT) as [->|_]; [|discriminate].
  intros H. apply digits_1_3_sound in H as (g & -> & Hg). now exists g.
Qed.

Lemma dot_digits_1_3_complete g r :
  digit_group g -> starts_with_digit r = false ->
  dot_digits_1_3 (DOT :: g ++ r) = Some r.
Proof.
  intros Hg Hr. unfold dot_digits_1_3. rewrite N.eqb_refl.
  now apply digits_1_3_complete.
Qed.

Lemma at_dollar_true r : at_dollar r = true <-> r = [] \/ r = [NEWLINE].
Proof.
  unfold at_dollar. destruct r as [|c [|x r]].
  - intuition.
  - rewrite N.eqb_eq. split.
    + intros ->. now right.
    + intros [H|H]; [discriminate|]. now injection H.
  - split; [discriminate|]. intros [H|H]; discriminate.
Qed.

(** What the anchored pattern of [parse_source_info] accepts: a dotted
    quad, or a dotted quad followed by one newline. *)
Lemma match_ip_spec s :
  match_ip s = true <->
  dotted_quad s \/ exists q, s = q ++ [NEWLINE] /\ dotted_quad q.
Proof.
  split.
  - unfold match_ip.
    destruct (digits_1_3 s) as [r1|] eqn:E1; [|discriminate].
    destruct (dot_digits_1_3 r1) as [r2|] eqn:E2; [|discriminate].
    destruct (dot_digits_1_3 r2) as [r3|] eqn:E3; [|discriminate].
    destruct (dot_digits_1_3 r3) as [r4|] eqn:E4; [|discriminate].
    apply digits_1_3_sound in E1 as (a & -> & Ha).
    apply dot_digits_1_3_sound in E2 as (b & -> & Hb).
    apply dot_digits_1_3_sound in E3 as (c & -> & Hc).
    apply dot_digits_1_3_sound in E4 as (d & -> & Hd).
    intros H. apply at_dollar_true in H as [->| ->].
    + left. exists a, b, c, d. rewrite app_nil_r. auto.
    + right. exists (a ++ DOT :: b ++ DOT :: c ++ DOT :: d). split.
      * repeat (rewrite <- ?app_assoc; simpl). reflexivity.
      * exists a, b, c, d. auto.
  - assert (G : forall a b c d r,
               digit_group a -> digit_group b -> digit_group c ->
               digit_group d -> starts_with_digit r = false ->
               at_dollar r = true ->
               match_ip (a ++ DOT :: b ++ DOT :: c ++ DOT :: d ++ r) = true).
    { intros a b c d r Ha Hb Hc Hd Hr Hend. unfold match_ip.
      rewrite digits_1_3_complete; auto using isdecimal_dot.
      rewrite dot_digits_1_3_complete; auto using isdecimal_dot.
      rewrite dot_digits_1_3_complete; auto using isdecimal_dot.
      rewrite dot_digits_1_3_complete; auto. }
    intros [(a & b & c & d & -> & Ha & Hb & Hc & Hd)
           |(q & -> & a & b & c & d & -> & Ha & Hb & Hc & Hd)].
    + rewrite <- (app_nil_r d). now apply G.
    + repeat (rewrite <- ?app_assoc; simpl).
      apply G; auto. simpl. apply isdecimal_newline.
Qed.

Lemma dotted_quad_no_colon s : dotted_quad s -> ~ In COLON s.
Proof.
  intros (a & b & c & d & -> & Ha & Hb & Hc & Hd) Hin.
  assert (G : forall g, digit_group g -> ~ In COLON g).
  { intros g [_ Hg] Hc'. rewrite Forall_forall in Hg.
    apply Hg in Hc'. now rewrite isdecimal_colon in Hc'. }
  repeat (apply in_app_or in Hin as [Hin|Hin]; [now apply G in Hin|];
          destruct Hin as [Hin|Hin]; [discriminate|]).
  now apply G in Hin.
Qed.

Lemma dotted_quad_not_oss s r : dotted_quad s ->
  startswith OSS_PREFIX (s ++ r) = false.
Proof.
  intros (a & b & c & d & -> & [Hlen Ha] & _).
  destruct a as [|x a]; [simpl in Hlen; lia|].
  inversion Ha as [|? ? Hx _]; subst.
  unfold OSS_PREFIX. cbn [startswith app].
  destruct (N.eqb_spec 111 x) as [<-|_]; [|reflexivity].
  now rewrite isdecimal_ascii in Hx.
Qed.

(** The shorthand [ip:port] with a dotted quad before the colon. *)
Lemma parse_source_info_ip_port ip port_part n :
  dotted_quad ip -> ~ In COLON port_part -> py_int port_part = Ok n ->
  parse_source_info (SourceStr (ip ++ COLON :: port_part)) =
    Ok {| type := IPADDR; content := Some ip; port := n |}.
Proof.
  intros Hip Hport Hn. unfold parse_source_info.
  rewrite dotted_quad_not_oss by assumption.
  rewrite split_app, split_no_sep
    by auto using dotted_quad_no_colon.
  cbn [nth]. rewrite Hn. cbn [bind].
  assert (match_ip ip = true) as -> by (apply match_ip_spec; now left).
  reflexivity.
Qed.

(** A shorthand without a colon gets port 80. *)
Lemma parse_source_info_no_colon s :
  ~ In COLON s ->
  parse_source_info (SourceStr s) =
    Ok {| type := if match_ip s then IPADDR else DOMAIN;
          content := Some s; port := 80 |}.
Proof.
  intros Hs. unfold parse_source_info.
  destruct (startswith OSS_PREFIX s) eqn:E.
  - apply startswith_true in E as [r ->]. exfalso. apply Hs.
    simpl. auto 6.
  - now rewrite split_no_sep.
Qed.

(** With no further [oss://] in it, what follows the prefix is kept. *)
Lemma parse_source_info_oss x :
  contains OSS_PREFIX x = false ->
  parse_source_info (SourceStr (OSS_PREFIX ++ x)) =
    Ok {| type := OSS; content := Some x; port := 80 |}.
Proof.
  intros Hx. unfold parse_source_info. rewrite startswith_app.
  rewrite replace_front by discriminate.
  now rewrite replace_absent.
Qed.

(** C3 (the code departs from the claim).  On [oss://a.oss://b] the
    prefix is stripped and so is the second [oss://]: the content is
    [a.b], not the remainder [a.oss://b]. *)
Theorem parse_source_info_oss_twice :
  parse_source_info (SourceStr (utf8 "oss://a.oss://b")) =
    Ok {| type := OSS; content := Some (utf8 "a.b"); port := 80 |}
  /\ utf8 "a.b" <> utf8 "a.oss://b".
Proof. split; [reflexivity|discriminate]. Qed.

(** C5 (the code departs from the claim).  A dotted quad followed by a
    newline is not four dot-separated digit groups, and it is classified
    as an IP address all the same. *)
Theorem parse_source_info_ip_newline :
  parse_source_info (SourceStr (utf8 "1.2.3.4" ++ [NEWLINE])) =
    Ok {| type := IPADDR;
          content := Some (utf8 "1.2.3.4" ++ [NEWLINE]);
          port := 80 |}
  /\ ~ dotted_quad (utf8 "1.2.3.4" ++ [NEWLINE]).
Proof.
  split.
  - rewrite parse_source_info_no_colon.
    + assert (match_ip (utf8 "1.2.3.4" ++ [NEWLINE]) = true) as ->;
        [|reflexivity].
      apply match_ip_spec. right. exists (utf8 "1.2.3.4"). split;
        [reflexivity|].
      exists [49], [50], [51], [52]. unfold digit_group.
      repeat split; simpl; try lia;
        repeat constructor; now rewrite isdecimal_ascii.
    + cbv. intuition discriminate.
  - intros (a & b & c & d & E & _ & _ & _ & [Hlen Hd]).
    destruct (exists_last (l := d)) as (d' & z & ->).
    { intros ->. simpl in Hlen. lia. }
    apply Forall_app in Hd as [_ Hz].
    inversion Hz as [|? ? Hz' _]; subst.
    replace (a ++ DOT :: b ++ DOT :: c ++ DOT :: d' ++ [z])
      with ((a ++ DOT :: b ++ DOT :: c ++ DOT :: d') ++ [z]) in E
      by (repeat (rewrite <- ?app_assoc; simpl); reflexivity).
    apply app_inj_tail in E as [_ <-].
    now rewrite isdecimal_newline in Hz'.
Qed.

End Origins.

(** ** The extractor: one line *)

Section Lines.

Context {R : Runtime}.

Lemma process_line_dispatch d line :
  process_line d line =
    match classify line with
    | Some c => handle c d line
    | None => Ok d
    end.
Proof.
  unfold process_line, classify, categories.
  cbn [find snd fst option_map].
  destruct (contains M_DOMAIN_SUFFIX line); [reflexivity|].
  destruct (contains M_CDN_TYPE line); [reflexivity|].
  destruct (contains M_SOURCE_TYPE line); [reflexivity|].
  destruct (contains M_IP line); [reflexivity|].
  destruct (contains M_PORT line); [reflexivity|].
  destruct (contains M_CACHE line); reflexivity.
Qed.

Lemma handle_only_changes c d line :
  match handle c d line with
  | Ok d' => only_changes c d d'
  | Raise _ => True
  end.
Proof.
  destruct c; cbn [handle only_changes].
  - unfold on_domain. eauto.
  - unfold on_cdn_type.
    repeat match goal with
           | |- context [if ?b then _ else _] => destruct b
           end; eauto.
  - unfold on_source_type.
    repeat match goal with
           | |- context [if ?b then _ else _] => destruct b
           end; eauto.
  - unfold on_source_ip. destruct (item0 _); cbn [bind]; eauto.
  - unfold on_source_port. destruct (item0 _); cbn [bind]; [|exact I].
    destruct (py_int _); cbn [bind]; eauto.
  - unfold on_cache. destruct (cache_hours _); cbn [bind]; [|exact I].
    destruct (map_result _ _); cbn [bind]; eauto.
Qed.

(** C8.  The loop body gives a line to one category at most, the first in
    the order domain suffix, acceleration type, origin type, IP address,
    port, cache whose marker the line contains: the line is handled by
    that category's branch alone, and whatever the branch returns differs
    from the draft only in that category's field. *)
Theorem process_line_first_match d line :
  process_line d line =
    match classify line with
    | Some c => handle c d line
    | None => Ok d
    end
  /\ match classify line, process_line d line with
     | Some c, Ok d' => only_changes c d d'
     | None, r => r = Ok d
     | Some _, Raise _ => True
     end.
Proof.
  split; [apply process_line_dispatch|].
  rewrite process_line_dispatch.
  destruct (classify line) as [c|]; [|reflexivity].
  apply handle_only_changes.
Qed.

(** [classify] answers with the first marker that occurs: no marker of
    higher priority occurs in the line. *)
Lemma classify_first line c :
  classify line = Some c ->
  exists before m after,
    categories = before ++ (c, m) :: after
    /\ contains m line = true
    /\ Forall (fun cm => contains (snd cm) line = false) before.
Proof.
  unfold classify. generalize categories as cs.
  induction cs as [|[c0 m0] cs IH]; cbn [find snd]; [discriminate|].
  destruct (contains m0 line) eqn:E.
  - intros [= <-]. exists [], m0, cs. auto.
  - intros H. destruct (IH H) as (before & m & after & -> & Hm & Hb).
    exists ((c0, m0) :: before), m, after. auto.
Qed.

(** [re.findall(r'\d+', line)[0]] is the first digit run, and raises
    [IndexError] when there is none. *)
Lemma findall_digits_head s :
  match findall_digits s with
  | [] => first_digit_run s = []
  | r :: _ => first_digit_run s = r /\ r <> []
  end.
Proof.
  unfold first_digit_run.
  induction s as [|c t IH]; cbn [findall_digits dropwhile takewhile];
    [reflexivity|].
  destruct (isdecimal c) eqn:Ec; cbn [negb]; [|exact IH].
  cbn [takewhile]. rewrite Ec.
  destruct t as [|e t']; [cbn; split; [reflexivity|discriminate]|].
  cbn [starts_with_digit].
  destruct (isdecimal e) eqn:Ee.
  - cbn [dropwhile] in IH. rewrite Ee in IH. cbn [negb] in IH.
    destruct (findall_digits (e :: t')) as [|r rs].
    + cbn [takewhile] in IH. rewrite Ee in IH. discriminate.
    + destruct IH as [<- _]. split; [reflexivity|discriminate].
  - cbn [takewhile]. rewrite Ee. split; [reflexivity|discriminate].
Qed.

Lemma item0_findall_digits s :
  item0 (findall_digits s) =
    match first_digit_run s with
    | [] => Raise IndexError
    | r => Ok r
    end.
Proof.
  pose proof (findall_digits_head s) as H.
  destruct (findall_digits s) as [|r rs]; cbn [item0].
  - now rewrite H.
  - destruct H as [-> Hr]. now destruct r.
Qed.

(** Formatting one rule per extension does not depend on the extension. *)
Lemma map_cache_rule_string ttl t exts :
  py_str_int ttl = Ok t ->
  map_result (cache_rule_string ttl) exts =
    Ok (map (fun ext => ext ++ COLON :: t) exts).
Proof.
  intros H. induction exts as [|ext exts IH]; cbn [map_result map];
    [reflexivity|].
  unfold cache_rule_string at 1. rewrite H, IH. reflexivity.
Qed.

(** The cache branch, when the unit marker it finds comes with a digit run
    that [int] reads as [h]. *)
Lemma on_cache_rules d line h t :
  (contains M_HOUR line || contains M_DAY line = true ->
   first_digit_run line <> [] /\ py_int (first_digit_run line) = Ok h) ->
  py_str_int (duration_hours line h * 3600) = Ok t ->
  cache_hours line = Ok (duration_hours line h)
  /\ on_cache d line =
       Ok (add_cache_rules
             (map (fun ext => ext ++ COLON :: t)
                (split COMMA (cache_pattern line))) d).
Proof.
  intros Hunit Hstr.
  assert (Hh : cache_hours line = Ok (duration_hours line h)).
  { unfold cache_hours, duration_hours in *.
    rewrite !item0_findall_digits.
    destruct (contains M_HOUR line).
    - destruct (Hunit eq_refl) as [Hne Hint].
      destruct (first_digit_run line); [congruence|].
      cbn [bind]. exact Hint.
    - destruct (contains M_DAY line); [|reflexivity].
      destruct (Hunit eq_refl) as [Hne Hint].
      destruct (first_digit_run line); [congruence|].
      cbn [bind]. rewrite Hint. reflexivity. }
  split; [exact Hh|].
  unfold on_cache. rewrite Hh. cbn [bind].
  rewrite (map_cache_rule_string _ t) by exact Hstr. reflexivity.
Qed.

(** C4 (amended).  For a line handled as a cache line: with the hour
    marker the duration is the first digit run read as hours; without it
    and with the day marker it is the first digit run times 24; with
    neither marker it is 1 hour, whatever digits the line has.  The ttl is
    the hours times 3600 and one rule [ext:ttl] is added per extension of
    the pattern group, in order. *)
Theorem cache_line_rules d line h t
    (Hcat : classify line = Some Cache)
    (Hunit : contains M_HOUR line || contains M_DAY line = true ->
             first_digit_run line <> []
             /\ py_int (first_digit_run line) = Ok h)
    (Hstr : py_str_int (duration_hours line h * 3600) = Ok t) :
  cache_hours line = Ok (duration_hours line h)
  /\ process_line d line =
       Ok (add_cache_rules
             (map (fun ext => ext ++ COLON :: t)
                (split COMMA (cache_pattern line))) d).
Proof.
  rewrite process_line_dispatch, Hcat. cbn [handle].
  now apply on_cache_rules.
Qed.

(** A cache line with the day marker, without the hour marker, and with
    first digit run [2] gets the ttl 2 * 24 * 3600. *)
Lemma cache_line_two_days d line :
  classify line = Some Cache ->
  contains M_HOUR line = false -> contains M_DAY line = true ->
  first_digit_run line = utf8 "2" ->
  cache_hours line = Ok (2 * 24)%Z
  /\ process_line d line =
       Ok (add_cache_rules
             (map (fun ext => ext ++ utf8 ":172800")
                (split COMMA (cache_pattern line))) d).
Proof.
  intros Hcat Hh Hd Hrun.
  rewrite process_line_dispatch, Hcat. cbn [handle].
  destruct (on_cache_rules d line 2 (utf8 "172800")) as [H1 H2].
  - intros _. rewrite Hrun. split; [discriminate|reflexivity].
  - unfold duration_hours. rewrite Hh, Hd. reflexivity.
  - unfold duration_hours in H1. rewrite Hh, Hd in H1. auto.
Qed.

End Lines.

(** ** Dotted quads and digits inside a line *)

Section Searches.

Context {R : Runtime}.

Lemma takewhile_app_stop p g r :
  Forall (fun c => p c = true) g ->
  match r with [] => true | c :: _ => negb (p c) end = true ->
  takewhile p (g ++ r) = g /\ dropwhile p (g ++ r) = r.
Proof.
  intros Hg Hr. induction Hg as [|c g Hc _ IH].
  - destruct r as [|c r]; simpl; [auto|].
    apply negb_true_iff in Hr. rewrite Hr. auto.
  - simpl. rewrite Hc. destruct IH as [-> ->]. auto.
Qed.

Lemma digits1_sound s g r :
  digits1 s = Some (g, r) -> s = g ++ r /\ digit_run g.
Proof.
  unfold digits1, digit_run. intros H.
  pose proof (takewhile_dropwhile isdecimal s) as E.
  pose proof (takewhile_all isdecimal s) as A.
  destruct (takewhile isdecimal s) as [|c t]; [discriminate|].
  injection H as <- <-. repeat split; [now symmetry|discriminate|exact A].
Qed.

(** A digit run followed by something that is no digit is taken whole. *)
Lemma digits1_exact g r :
  digit_run g -> starts_with_digit r = false ->
  digits1 (g ++ r) = Some (g, r).
Proof.
  intros [Hne Hg] Hr. unfold digits1.
  destruct (takewhile_app_stop isdecimal g r Hg) as [-> ->].
  - destruct r; [reflexivity|]. simpl in Hr. now rewrite Hr.
  - destruct g; [congruence|reflexivity].
Qed.

(** A digit run is taken, with the digits that follow it if any. *)
Lemma digits1_some g r :
  digit_run g -> exists g' r', digits1 (g ++ r) = Some (g', r').
Proof.
  intros [Hne Hg]. unfold digits1.
  destruct g as [|c g]; [congruence|].
  inversion Hg as [|? ? Hc _]; subst. simpl. rewrite Hc. eauto.
Qed.

Lemma dot_digits1_sound s m r :
  dot_digits1 s = Some (m, r) ->
  exists g, m = DOT :: g /\ s = DOT :: g ++ r /\ digit_run g.
Proof.
  unfold dot_digits1. destruct s as [|c t]; [discriminate|].
  destruct (N.eqb_spec c DOT) as [->|_]; [|discriminate].
  destruct (digits1 t) as [[g r']|] eqn:E; [|discriminate].
  intros [= <- <-]. apply digits1_sound in E as [-> Hg]. now exists g.
Qed.

Lemma dot_digits1_exact g r :
  digit_run g -> starts_with_digit r = false ->
  dot_digits1 (DOT :: g ++ r) = Some (DOT :: g, r).
Proof.
  intros Hg Hr. unfold dot_digits1. rewrite N.eqb_refl.
  now rewrite digits1_exact.
Qed.

Lemma match_quad_sound s m :
  match_quad s = Some m ->
  exists a b c d rest,
    m = a ++ DOT :: b ++ DOT :: c ++ DOT :: d
    /\ s = m ++ rest
    /\ digit_run a /\ digit_run b /\ digit_run c /\ digit_run d.
Proof.
  unfold match_quad.
  destruct (digits1 s) as [[a r1]|] eqn:E1; [|discriminate].
  destruct (dot_digits1 r1) as [[b r2]|] eqn:E2; [|discriminate].
  destruct (dot_digits1 r2) as [[c r3]|] eqn:E3; [|discriminate].
  destruct (dot_digits1 r3) as [[d r4]|] eqn:E4; [|discriminate].
  intros [= <-].
  apply digits1_sound in E1 as [-> Ha].
  apply dot_digits1_sound in E2 as (b' & -> & -> & Hb).
  apply dot_digits1_sound in E3 as (c' & -> & -> & Hc).
  apply dot_digits1_sound in E4 as (d' & -> & -> & Hd).
  exists a, b', c', d', r4.
  split; [reflexivity|]. split; [|tauto].
  repeat (rewrite <- ?app_assoc; simpl). reflexivity.
Qed.

Lemma starts_with_digit_dot r : starts_with_digit (DOT :: r) = false.
Proof. simpl. now rewrite isdecimal_ascii. Qed.

Lemma match_quad_complete a b c d post :
  digit_run a -> digit_run b -> digit_run c -> digit_run d ->
  exists m, match_quad ((a ++ DOT :: b ++ DOT :: c ++ DOT :: d) ++ post)
            = Some m.
Proof.
  intros Ha Hb Hc Hd. unfold match_quad.
  repeat (rewrite <- ?app_assoc; simpl).
  rewrite digits1_exact by auto using starts_with_digit_dot.
  rewrite dot_digits1_exact by auto using starts_with_digit_dot.
  rewrite dot_digits1_exact by auto using starts_with_digit_dot.
  unfold dot_digits1. rewrite N.eqb_refl.
  destruct (digits1_some d post Hd) as (g' & r' & ->). eauto.
Qed.

(** [re.findall] finds no dotted quad exactly when the line has none. *)
Lemma findall_quad_nil s : findall_quad s = [] <-> ~ has_dotted_quad s.
Proof.
  unfold findall_quad. split.
  - intros H (pre & a & b & c & d & post & -> & Ha & Hb & Hc & Hd).
    induction pre as [|x pre IH].
    + destruct (match_quad_complete a b c d post Ha Hb Hc Hd) as [m Hm].
      cbn [app] in H, Hm.
      destruct ((a ++ DOT :: b ++ DOT :: c ++ DOT :: d) ++ post) as [|y t].
      * cbn in Hm. discriminate.
      * cbn [findall_quad_from] in H. rewrite Hm in H. discriminate.
    + cbn [app findall_quad_from] in H.
      destruct (match_quad _); [discriminate|]. now apply IH.
  - intros H. induction s as [|x s IH]; [reflexivity|].
    cbn [findall_quad_from].
    destruct (match_quad (x :: s)) as [m|] eqn:E.
    + exfalso. apply H.
      apply match_quad_sound in E
        as (a & b & c & d & rest & -> & E & Ha & Hb & Hc & Hd).
      exists [], a, b, c, d, rest. cbn [app]. auto.
    + apply IH. intros (pre & a & b & c & d & post & -> & Hq).
      apply H. now exists (x :: pre), a, b, c, d, post.
Qed.

Lemma first_digit_run_nil s :
  Forall (fun c => isdecimal c = false) s -> first_digit_run s = [].
Proof.
  unfold first_digit_run. induction 1 as [|c s Hc _ IH]; simpl;
    [reflexivity|].
  rewrite Hc. exact IH.
Qed.

(** The two unguarded [findall(...)[0]] of the loop body. *)
Lemma process_line_index_error d line
    (H : (classify line = Some IPAddress /\ ~ has_dotted_quad line)
         \/ (classify line = Some PortNumber
             /\ Forall (fun c => isdecimal c = false) line)) :
  process_line d line = Raise IndexError.
Proof.
  rewrite process_line_dispatch.
  destruct H as [[-> Hq]|[-> Hd]]; cbn [handle].
  - unfold on_source_ip. apply findall_quad_nil in Hq. now rewrite Hq.
  - unfold on_source_port. rewrite item0_findall_digits.
    now rewrite first_digit_run_nil.
Qed.

End Searches.

(** ** The extractor: the whole text *)

Section Texts.

Context {R : Runtime}.

Variable cdn_client : list Call -> Call -> bool.

Lemma scan_app d before after :
  scan d (before ++ after) =
    (d' <- scan d before ;; scan d' after).
Proof.
  revert d. induction before as [|line before IH]; intros d;
    cbn [app scan bind]; [reflexivity|].
  destruct (process_line d line); cbn [bind]; [apply IH|reflexivity].
Qed.

(** An exception of the loop leaves [setup_cdn_with_text] before any call
    to the provider. *)
Lemma setup_scan_raise text e log :
  scan empty_draft (lines_of text) = Raise e ->
  setup_cdn_with_text cdn_client text log = (Raise e, log).
Proof.
  intros H. unfold setup_cdn_with_text, bindM, lift. now rewrite H.
Qed.

(** C10 (amended).  The extractor raises an uncaught [IndexError], and
    returns neither a result nor a failure message, at the first line that
    reaches the IP-address branch (it has the IP-address marker and no
    marker of domain suffix, acceleration type or origin type) without a
    dotted quad in it, or that reaches the port branch (it has the port
    marker and none of the four markers before it) without a digit. *)
Theorem setup_index_error text before line after d0 log
    (Hlines : lines_of text = before ++ line :: after)
    (Hbefore : scan empty_draft before = Ok d0)
    (Hline : (classify line = Some IPAddress /\ ~ has_dotted_quad line)
             \/ (classify line = Some PortNumber
                 /\ Forall (fun c => isdecimal c = false) line)) :
  process_line d0 line = Raise IndexError
  /\ setup_cdn_with_text cdn_client text log = (Raise IndexError, log).
Proof.
  pose proof (process_line_index_error d0 line Hline) as E.
  split; [exact E|].
  apply setup_scan_raise.
  rewrite Hlines, scan_app, Hbefore. cbn [bind scan]. now rewrite E.
Qed.

(** *** Lines without the domain suffix, lines without the IP marker *)

Lemma classify_domain line :
  classify line = Some DomainSuffix -> contains M_DOMAIN_SUFFIX line = true.
Proof.
  unfold classify, categories. cbn [find snd fst option_map].
  destruct (contains M_DOMAIN_SUFFIX line); [reflexivity|].
  destruct (contains M_CDN_TYPE line); [discriminate|].
  destruct (contains M_SOURCE_TYPE line); [discriminate|].
  destruct (contains M_IP line); [discriminate|].
  destruct (contains M_PORT line); [discriminate|].
  destruct (contains M_CACHE line); discriminate.
Qed.

Lemma classify_ip line :
  classify line = Some IPAddress -> contains M_IP line = true.
Proof.
  unfold classify, categories. cbn [find snd fst option_map].
  destruct (contains M_DOMAIN_SUFFIX line); [discriminate|].
  destruct (contains M_CDN_TYPE line); [discriminate|].
  destruct (contains M_SOURCE_TYPE line); [discriminate|].
  destruct (contains M_IP line); [reflexivity|].
  destruct (contains M_PORT line); [discriminate|].
  destruct (contains M_CACHE line); discriminate.
Qed.

Lemma only_changes_domain c d d' :
  c <> DomainSuffix -> only_changes c d d' ->
  domain_name d' = domain_name d.
Proof.
  destruct c; cbn [only_changes]; intros Hc H; try congruence;
    repeat match goal with
           | H : _ \/ _ |- _ => destruct H
           | H : exists _, _ |- _ => destruct H
           end; subst; reflexivity.
Qed.

Lemma only_changes_ip c d d' :
  c <> IPAddress -> only_changes c d d' -> source_ip d' = source_ip d.
Proof.
  destruct c; cbn [only_changes]; intros Hc H; try congruence;
    repeat match goal with
           | H : _ \/ _ |- _ => destruct H
           | H : exists _, _ |- _ => destruct H
           end; subst; reflexivity.
Qed.

Lemma process_line_keeps_domain d line d' :
  contains M_DOMAIN_SUFFIX line = false ->
  process_line d line = Ok d' -> domain_name d' = domain_name d.
Proof.
  intros Hm H. rewrite process_line_dispatch in H.
  destruct (classify line) as [c|] eqn:Ec; [|now injection H as <-].
  pose proof (handle_only_changes c d line) as O. rewrite H in O.
  apply only_changes_domain in O; [exact O|].
  intros ->. apply classify_domain in Ec. congruence.
Qed.

Lemma process_line_keeps_ip d line d' :
  contains M_IP line = false ->
  process_line d line = Ok d' -> source_ip d' = source_ip d.
Proof.
  intros Hm H. rewrite process_line_dispatch in H.
  destruct (classify line) as [c|] eqn:Ec; [|now injection H as <-].
  pose proof (handle_only_changes c d line) as O. rewrite H in O.
  apply only_changes_ip in O; [exact O|].
  intros ->. apply classify_ip in Ec. congruence.
Qed.

Lemma scan_keeps_domain lines d d' :
  Forall (fun line => contains M_DOMAIN_SUFFIX line = false) lines ->
  scan d lines = Ok d' -> domain_name d' = domain_name d.
Proof.
  intros H. revert d. induction H as [|line lines Hl _ IH]; intros d;
    cbn [scan]; [now intros [= <-]|].
  destruct (process_line d line) as [d1|e] eqn:E; cbn [bind];
    [|discriminate].
  intros H. rewrite (IH _ H). eapply process_line_keeps_domain; eassumption.
Qed.

Lemma scan_keeps_ip lines d d' :
  Forall (fun line => contains M_IP line = false) lines ->
  scan d lines = Ok d' -> source_ip d' = source_ip d.
Proof.
  intros H. revert d. induction H as [|line lines Hl _ IH]; intros d;
    cbn [scan]; [now intros [= <-]|].
  destruct (process_line d line) as [d1|e] eqn:E; cbn [bind];
    [|discriminate].
  intros H. rewrite (IH _ H). eapply process_line_keeps_ip; eassumption.
Qed.

(** Without a line that has the domain suffix, the extractor makes no
    call: it returns the failure message when the loop ends, and raises
    what the loop raises otherwise. *)
Lemma setup_no_domain text log :
  Forall (fun line => contains M_DOMAIN_SUFFIX line = false)
    (lines_of text) ->
  setup_cdn_with_text cdn_client text log =
    match scan empty_draft (lines_of text) with
    | Ok _ => (Ok MSG_NO_DOMAIN, log)
    | Raise e => (Raise e, log)
    end.
Proof.
  intros H. unfold setup_cdn_with_text, bindM, lift.
  destruct (scan empty_draft (lines_of text)) as [d|e] eqn:E;
    [|reflexivity].
  apply scan_keeps_domain in E; [|exact H].
  cbn [domain_name empty_draft] in E. now rewrite E.
Qed.

(** *** The calls of a successful scan *)

Lemma add_cdn_domain_dict dn src ct log :
  let c := AddCdnDomain {| add_domain_name := dn;
                           add_sources := [src];
                           add_cdn_type := ct |} in
  add_cdn_domain cdn_client dn (OneSourceDict src) ct log =
    (if cdn_client log c then Ok (MSG_DOMAIN ++ dn ++ MSG_ADDED)
     else Raise ServiceFailure,
     log ++ [c]).
Proof.
  intros c. unfold add_cdn_domain, bindM, lift, call, ret.
  cbn [map_result parse_source_info bind]. fold c.
  now destruct (cdn_client log c).
Qed.

Lemma set_cdn_cache_log dn rules log :
  exists more, snd (set_cdn_cache cdn_client dn rules log) = log ++ more.
Proof.
  unfold set_cdn_cache, bindM, lift, call, ret.
  destruct (map_result parse_cache_rule _) as [parsed|e];
    [|exists []; now rewrite app_nil_r].
  destruct (map_result rule_args parsed) as [args|e];
    [|exists []; now rewrite app_nil_r].
  match goal with
  | |- context [cdn_client log ?c] =>
      exists [c]; now destruct (cdn_client log c)
  end.
Qed.

(** With no line that has the IP marker, a scan that ends with a domain
    name is followed by the call that adds the domain, with an origin
    whose content is [None]. *)
Lemma setup_without_ip text d c n log :
  Forall (fun line => contains M_IP line = false) (lines_of text) ->
  scan empty_draft (lines_of text) = Ok d ->
  domain_name d = Some (c :: n) ->
  exists r more,
    setup_cdn_with_text cdn_client text log =
      (r, log ++
          AddCdnDomain
            {| add_domain_name := c :: n;
               add_sources :=
                 [ {| type := or_str (source_type d) IPADDR;
                      content := None;
                      port := or_int (source_port d) 80 |} ];
               add_cdn_type := or_str (cdn_type d) WEB |} :: more).
Proof.
  intros Hip Hscan Hdn.
  pose proof (scan_keeps_ip _ _ _ Hip Hscan) as Hnone.
  cbn [source_ip empty_draft] in Hnone.
  unfold setup_cdn_with_text. unfold bindM at 1. unfold lift.
  rewrite Hscan, Hdn. unfold bindM at 1.
  rewrite add_cdn_domain_dict. unfold build_source. rewrite Hnone.
  match goal with
  | |- context [cdn_client log ?call] => destruct (cdn_client log call)
  end.
  - unfold bindM, ret. destruct (cache_rules d) as [|rule rules].
    + eexists _, []. reflexivity.
    + destruct (set_cdn_cache_log (c :: n)
                  (RuleList (map RuleStr (rule :: rules)))
                  (log ++ [AddCdnDomain
                     {| add_domain_name := c :: n;
                        add_sources :=
                          [ {| type := or_str (source_type d) IPADDR;
                               content := None;
                               port := or_int (source_port d) 80 |} ];
                        add_cdn_type := or_str (cdn_type d) WEB |}]))
        as [more Hmore].
      destruct (set_cdn_cache _ _ _ _) as [[msg|e] log'];
        cbn [snd] in Hmore; subst log'; rewrite <- app_assoc;
        eexists _, more; reflexivity.
  - eexists _, []. reflexivity.
Qed.

End Texts.

(** ** The domain name of a text that has a domain line *)

Section Domains.

Context {R : Runtime}.

Lemma strip_idempotent s : strip (strip s) = strip s.
Proof.
  destruct (strip_spec s) as (l & r & _ & _ & _ & Hhead & Hlast).
  destruct (strip s) as [|c t] eqn:E; [reflexivity|].
  pose proof (Hhead c t eq_refl) as Hc.
  destruct (exists_last (l := c :: t)) as (u & z & Eu); [discriminate|].
  pose proof (Hlast u z Eu) as Hz.
  unfold strip, lstrip, rstrip. cbn [dropwhile]. rewrite Hc.
  rewrite Eu, rev_app_distr. cbn [rev app dropwhile]. rewrite Hz.
  change (z :: rev u) with ([z] ++ rev u).
  rewrite rev_app_distr, rev_involutive. reflexivity.
Qed.

(** The lines of a text are stripped and not empty. *)
Lemma lines_of_stripped text :
  Forall (fun line => strip line = line /\ line <> []) (lines_of text).
Proof.
  unfold lines_of. apply Forall_forall. intros line Hin.
  apply in_map_iff in Hin as (piece & <- & Hp).
  apply filter_In in Hp as [_ Hp]. split; [apply strip_idempotent|].
  intros E. rewrite E in Hp. discriminate.
Qed.

Lemma process_line_domain d line d' :
  strip line = line -> line <> [] ->
  process_line d line = Ok d' ->
  (contains M_DOMAIN_SUFFIX line = true \/ has_domain_name d) ->
  has_domain_name d'.
Proof.
  intros Hs Hne H Hor. unfold process_line in H.
  destruct (contains M_DOMAIN_SUFFIX line) eqn:E.
  - unfold on_domain in H. injection H as <-. rewrite Hs.
    destruct line as [|c n]; [congruence|]. now exists c, n.
  - destruct Hor as [Hor|(c & n & Hd)]; [discriminate|].
    assert (process_line d line = Ok d') as H'
      by (unfold process_line; now rewrite E).
    apply process_line_keeps_domain in H'; [|exact E].
    exists c, n. congruence.
Qed.

Lemma scan_domain lines d d' :
  Forall (fun line => strip line = line /\ line <> []) lines ->
  scan d lines = Ok d' ->
  (Exists (fun line => contains M_DOMAIN_SUFFIX line = true) lines
   \/ has_domain_name d) ->
  has_domain_name d'.
Proof.
  intros H. revert d. induction H as [|line lines [Hs Hne] _ IH];
    intros d; cbn [scan].
  - intros [= <-] [Hex|Hd]; [inversion Hex|exact Hd].
  - destruct (process_line d line) as [d1|e] eqn:E; cbn [bind];
      [|discriminate].
    intros Hscan Hor. apply (IH d1 Hscan).
    destruct Hor as [Hex|Hd].
    + inversion Hex as [? ? Hl|? ? Hl]; subst.
      * right. eapply process_line_domain; eauto.
      * now left.
    + right. eapply process_line_domain; eauto.
Qed.

(** A text with a domain line and no line with the IP marker, whose scan
    raises nothing: the domain is added with an origin of content [None]. *)
Lemma setup_domain_without_ip cdn_client text d log :
  Exists (fun line => contains M_DOMAIN_SUFFIX line = true) (lines_of text) ->
  Forall (fun line => contains M_IP line = false) (lines_of text) ->
  scan empty_draft (lines_of text) = Ok d ->
  exists name r more,
    domain_name d = Some name
    /\ setup_cdn_with_text cdn_client text log =
         (r, log ++
             AddCdnDomain
               {| add_domain_name := name;
                  add_sources :=
                    [ {| type := or_str (source_type d) IPADDR;
                         content := None;
                         port := or_int (source_port d) 80 |} ];
                  add_cdn_type := or_str (cdn_type d) WEB |} :: more).
Proof.
  intros Hex Hip Hscan.
  destruct (scan_domain _ _ _ (lines_of_stripped text) Hscan (or_introl Hex))
    as (c & n & Hd).
  destruct (setup_without_ip cdn_client text d c n log Hip Hscan Hd)
    as (r & more & E).
  now exists (c :: n), r, more.
Qed.

End Domains.

(** * The program run on CPython 3.11 *)

(** ** Cache rules *)

(** C1 as stated fails: with a colon inside the pattern the rule is not
    split at its last colon, it is refused. *)
Lemma parse_cache_rule_last_colon_counterexample :
  py_int (R := cpython311) (utf8 "60") = Ok 60%Z
  /\ parse_cache_rule (R := cpython311) (RuleStr (utf8 "a:b:60"))
     = Raise ValueError
  /\ parse_cache_rule (R := cpython311) (RuleStr (utf8 "a:b:60"))
     <> Ok {| path_pattern := utf8 "/a:b"; ttl := 60 |}.
Proof. repeat split; try reflexivity. discriminate. Qed.

Lemma parse_cache_rule_one_colon_witness :
  parse_cache_rule (R := cpython311) (RuleStr (utf8 "*.jpg:3600"))
  = Ok {| path_pattern := utf8 "/*.jpg"; ttl := 3600 |}
  /\ parse_cache_rule (R := cpython311) (RuleStr (utf8 "*.jpg:1h"))
     = Raise ValueError.
Proof.
  split.
  - refine (proj1 (parse_cache_rule_one_colon (R := cpython311)
                     (utf8 "*.jpg") (utf8 "3600") _ _));
      vm_compute; intuition discriminate.
  - refine (proj1 (parse_cache_rule_one_colon (R := cpython311)
                     (utf8 "*.jpg") (utf8 "1h") _ _));
      vm_compute; intuition discriminate.
Defined.

(** C6 as stated fails: a ttl part with a minus sign gives a negative
    ttl. *)
Lemma parse_cache_rule_negative_ttl_counterexample :
  parse_cache_rule (R := cpython311) (RuleStr (utf8 "*.jpg:-5"))
  = Ok {| path_pattern := utf8 "/*.jpg"; ttl := -5 |}
  /\ (ttl {| path_pattern := utf8 "/*.jpg"; ttl := -5 |} < 0)%Z.
Proof. split; reflexivity. Qed.

Lemma parse_cache_rule_ttl_nonneg_witness :
  (0 <= ttl {| path_pattern := utf8 "/*.jpg"; ttl := 3600 |})%Z.
Proof.
  refine (parse_cache_rule_ttl_nonneg (R := cpython311)
            (utf8 "*.jpg") (utf8 "3600") _ _ _).
  - vm_compute. reflexivity.
  - vm_compute. intuition discriminate.
Defined.

(** ** Headers *)

(** C2 as stated fails: a value with a colon in it is not kept after the
    first colon, the header is refused. *)
Lemma parse_header_first_colon_counterexample :
  parse_header (R := cpython311) (HeaderStr (utf8 "Host:example.com:8080"))
  = Raise ValueError
  /\ parse_header (R := cpython311) (HeaderStr (utf8 "Host:example.com:8080"))
     <> Ok {| key := utf8 "Host"; value := utf8 "example.com:8080" |}.
Proof. split; [reflexivity|discriminate]. Qed.

Lemma parse_header_one_colon_witness :
  parse_header (R := cpython311) (HeaderStr (utf8 "Content-Type: text/html"))
  = Ok {| key := utf8 "Content-Type"; value := utf8 "text/html" |}
  /\ parse_header (R := cpython311) (HeaderStr (utf8 "Content-Type"))
     = Raise ValueError.
Proof.
  refine (parse_header_one_colon (R := cpython311)
            (utf8 "Content-Type") (utf8 " text/html") _ _);
    vm_compute; intuition discriminate.
Defined.

(** ** Cache lines *)

(** C4 as stated fails.  A cache line with a digit run and no unit marker
    lasts 1 hour, not the digit run; and with both unit markers the digit
    run is not multiplied by 24. *)
Lemma cache_line_duration_counterexample :
  (classify (utf8 "缓存5") = Some Cache
   /\ first_digit_run (R := cpython311) (utf8 "缓存5") = utf8 "5"
   /\ cache_hours (R := cpython311) (utf8 "缓存5") = Ok 1%Z
   /\ process_line (R := cpython311) empty_draft (utf8 "缓存5")
      = Ok (add_cache_rules [utf8 "*:3600"] empty_draft))
  /\ (classify (utf8 "缓存2小时每天") = Some Cache
      /\ contains M_DAY (utf8 "缓存2小时每天") = true
      /\ first_digit_run (R := cpython311) (utf8 "缓存2小时每天") = utf8 "2"
      /\ cache_hours (R := cpython311) (utf8 "缓存2小时每天") = Ok 2%Z
      /\ process_line (R := cpython311) empty_draft (utf8 "缓存2小时每天")
         = Ok (add_cache_rules [utf8 "*:7200"] empty_draft)).
Proof. repeat split; reflexivity. Qed.

Lemma cache_line_rules_witness :
  cache_hours (R := cpython311) (utf8 "缓存2天") = Ok (2 * 24)%Z
  /\ process_line (R := cpython311) empty_draft (utf8 "缓存2天")
     = Ok (add_cache_rules [utf8 "*:172800"] empty_draft).
Proof.
  refine (cache_line_rules (R := cpython311) empty_draft (utf8 "缓存2天")
            2 (utf8 "172800") _ _ _).
  - vm_compute. reflexivity.
  - intros _. split; [vm_compute; discriminate|vm_compute; reflexivity].
  - vm_compute. reflexivity.
Defined.

(** ** Lines that raise *)

(** C10 as stated fails: a line with the IP marker and no dotted quad that
    an earlier branch takes raises nothing. *)
Lemma ip_marker_without_quad_counterexample :
  contains M_IP (utf8 "源站类型为IP地址") = true
  /\ findall_quad (R := cpython311) (utf8 "源站类型为IP地址") = []
  /\ classify (utf8 "源站类型为IP地址") = Some OriginType
  /\ process_line (R := cpython311) empty_draft (utf8 "源站类型为IP地址")
     = Ok empty_draft
  /\ setup_cdn_with_text (R := cpython311) accepting
       (utf8 "源站类型为IP地址") []
     = (Ok MSG_NO_DOMAIN, []).
Proof. repeat split; reflexivity. Qed.

Lemma setup_index_error_witness :
  process_line (R := cpython311) empty_draft (utf8 "源站的IP地址 待定")
  = Raise IndexError
  /\ setup_cdn_with_text (R := cpython311) accepting
       (utf8 "源站的IP地址 待定") []
     = (Raise IndexError, []).
Proof.
  refine (setup_index_error (R := cpython311) accepting
            (utf8 "源站的IP地址 待定") [] (utf8 "源站的IP地址 待定") []
            empty_draft [] _ _ _).
  - vm_compute. reflexivity.
  - reflexivity.
  - left. split; [vm_compute; reflexivity|].
    apply (proj1 (findall_quad_nil (R := cpython311) _)).
    vm_compute. reflexivity.
Defined.

(** ** Texts *)

(** C7 (the code departs from the claim).  A text without a domain line,
    whose only line has the port marker and no digit: the extractor raises
    [IndexError] and returns no failure message. *)
Theorem setup_no_domain_index_error cdn_client log :
  Forall (fun line => contains M_DOMAIN_SUFFIX line = false)
    (lines_of (R := cpython311) (utf8 "回源端口 默认"))
  /\ setup_cdn_with_text (R := cpython311) cdn_client
       (utf8 "回源端口 默认") log
     = (Raise IndexError, log)
  /\ setup_cdn_with_text (R := cpython311) cdn_client
       (utf8 "回源端口 默认") log
     <> (Ok MSG_NO_DOMAIN, log).
Proof.
  assert (E : setup_cdn_with_text (R := cpython311) cdn_client
                (utf8 "回源端口 默认") log = (Raise IndexError, log))
    by (apply setup_scan_raise; vm_compute; reflexivity).
  split; [|split].
  - vm_compute. repeat constructor.
  - exact E.
  - rewrite E. discriminate.
Qed.

(** C9 (the code departs from the claim).  A text with a domain line, no
    line with the IP marker, and a port line without a digit: the
    extractor raises [IndexError] before any origin is built, and the
    domain is not added. *)
Theorem setup_domain_without_ip_index_error cdn_client log :
  let text := utf8 "demo.xiangyuncdn.com" ++ NEWLINE :: utf8 "回源端口 默认" in
  Exists (fun line => contains M_DOMAIN_SUFFIX line = true)
    (lines_of (R := cpython311) text)
  /\ Forall (fun line => contains M_IP line = false)
       (lines_of (R := cpython311) text)
  /\ setup_cdn_with_text (R := cpython311) cdn_client text log
     = (Raise IndexError, log).
Proof.
  intros text. split; [|split].
  - vm_compute. constructor. reflexivity.
  - vm_compute. repeat constructor.
  - apply setup_scan_raise. vm_compute. reflexivity.
Qed.

(** A line with the port marker and the cache marker goes to the port
    branch alone. *)
Example port_before_cache :
  classify (utf8 "回源端口 81 缓存1小时") = Some PortNumber
  /\ process_line (R := cpython311) empty_draft (utf8 "回源端口 81 缓存1小时")
     = Ok (set_source_port 81 empty_draft).
Proof. split; reflexivity. Qed.

(** The example of the docstring of [setup_cdn_with_text]. *)
Example setup_docstring :
  let text :=
    utf8 "帮我添加一个加速域名" ++ NEWLINE ::
    utf8 "加速类型为 大文件下载" ++ NEWLINE ::
    utf8 "mygslb04.xiangyuncdn.com" ++ NEWLINE ::
    utf8 "源站类型，ipaddr" ++ NEWLINE ::
    utf8 "源站的IP地址 211.131.56.91" ++ NEWLINE ::
    utf8 "回源端口 81" ++ NEWLINE ::
    utf8 "设置图片缓存1小时" in
  scan (R := cpython311) empty_draft (lines_of (R := cpython311) text)
  = Ok {| domain_name := Some (utf8 "mygslb04.xiangyuncdn.com");
          cdn_type := Some DOWNLOAD;
          source_type := Some IPADDR;
          source_ip := Some (utf8 "211.131.56.91");
          source_port := Some 81%Z;
          cache_rules := [ utf8 "*.jpg:3600"; utf8 "*.jpeg:3600";
                           utf8 "*.png:3600"; utf8 "*.gif:3600" ] |}
  /\ fst (setup_cdn_with_text (R := cpython311) accepting text [])
     = Ok (utf8 "已完成CDN配置：" ++ NEWLINE ::
           utf8 "域名 mygslb04.xiangyuncdn.com 添加成功").
Proof. split; vm_compute; reflexivity. Qed.

(** * More of the code *)

(** ** [int(str(n))] *)

Section RoundTrip.

Context {R : Runtime}.

Lemma uint_chars_digits u :
  Forall (fun c => is_ascii_digit c = true) (uint_chars u).
Proof. induction u; cbn [uint_chars]; constructor; auto. Qed.

Lemma ascii_value_of_uint_acc u p :
  ascii_value (Npos p) (uint_chars u) = Npos (Pos.of_uint_acc u p).
Proof.
  revert p. unfold ascii_value.
  induction u as [|u IH|u IH|u IH|u IH|u IH|u IH|u IH|u IH|u IH|u IH];
    intros p; cbn [uint_chars fold_left Pos.of_uint_acc];
    [reflexivity| | | | | | | | | |];
    rewrite <- IH; f_equal; lia.
Qed.

Lemma ascii_value_of_uint u :
  ascii_value 0 (uint_chars u) = Pos.of_uint u.
Proof.
  induction u as [|u IH|u IH|u IH|u IH|u IH|u IH|u IH|u IH|u IH|u IH];
    cbn [uint_chars Pos.of_uint]; [reflexivity|exact IH| | | | | | | | |];
    rewrite <- ascii_value_of_uint_acc; reflexivity.
Qed.

Lemma to_ascii_ascii s :
  Forall (fun c => c < 127) s -> map to_ascii s = s.
Proof.
  induction 1 as [|c s Hc _ IH]; cbn [map]; [reflexivity|].
  rewrite IH. unfold to_ascii. apply N.ltb_lt in Hc. now rewrite Hc.
Qed.

Lemma ascii_digits_below s :
  Forall (fun c => is_ascii_digit c = true) s -> Forall (fun c => c < 127) s.
Proof.
  apply Forall_impl. intros c H. apply is_ascii_digit_bounds in H. lia.
Qed.

(** [int] on ASCII digits, with or without a minus sign in front. *)
Lemma py_int_ascii_digits (neg : bool) ds :
  ds <> [] -> Forall (fun c => is_ascii_digit c = true) ds ->
  py_int (if neg then MINUS :: ds else ds) =
    if exceeds_limit (List.length ds) then Raise ValueError
    else Ok (if neg then (- Z.of_N (ascii_value 0 ds))%Z
             else Z.of_N (ascii_value 0 ds)).
Proof.
  intros Hne Hds. destruct ds as [|c t]; [congruence|].
  inversion Hds as [|? ? Hc Ht]; subst.
  pose proof (proj1 (is_ascii_digit_bounds c) Hc) as Hb.
  unfold py_int.
  rewrite to_ascii_ascii.
  2:{ destruct neg; [constructor; [unfold MINUS; lia|]|];
        now apply ascii_digits_below. }
  assert (int_sign (dropwhile c_isspace (if neg then MINUS :: c :: t
                                          else c :: t)) = (neg, c :: t))
    as ->.
  { destruct neg; cbn [dropwhile].
    - replace (c_isspace MINUS) with false by reflexivity. reflexivity.
    - rewrite (c_isspace_digit _ Hc). unfold int_sign, MINUS, PLUS.
      destruct (N.eqb_spec c 45); [lia|].
      destruct (N.eqb_spec c 43); [lia|reflexivity]. }
  rewrite Hc, int_body_digits by assumption.
  cbn [Nat.add List.length].
  destruct (exceeds_limit _); [reflexivity|]. cbn [dropwhile].
  unfold ascii_value. cbn [fold_left].
  replace (10 * 0 + (c - 48)) with (c - 48) by lia. reflexivity.
Qed.

Lemma uint_chars_pos p : uint_chars (Pos.to_uint p) <> [].
Proof.
  intros E. pose proof (ascii_value_of_uint (Pos.to_uint p)) as H.
  rewrite E, DecimalPos.Unsigned.of_to in H. discriminate.
Qed.

Lemma ascii_value_pos p :
  ascii_value 0 (uint_chars (Pos.to_uint p)) = Npos p.
Proof. now rewrite ascii_value_of_uint, DecimalPos.Unsigned.of_to. Qed.

(** What [str] prints, [int] reads back. *)
Lemma py_int_py_str_int n t : py_str_int n = Ok t -> py_int t = Ok n.
Proof.
  unfold py_str_int. destruct n as [|p|p]; cbn [Z.to_int].
  - change (uint_chars Decimal.zero) with [48].
    replace (exceeds_limit (List.length [48])) with false by reflexivity.
    intros [= <-]. reflexivity.
  - destruct (exceeds_limit _) eqn:E; [discriminate|]. intros [= <-].
    rewrite (py_int_ascii_digits false)
      by auto using uint_chars_pos, uint_chars_digits.
    now rewrite E, ascii_value_pos.
  - destruct (exceeds_limit _) eqn:E; [discriminate|]. intros [= <-].
    rewrite (py_int_ascii_digits true)
      by auto using uint_chars_pos, uint_chars_digits.
    now rewrite E, ascii_value_pos.
Qed.

(** [str] prints digits and at most a minus sign: no colon. *)
Lemma py_str_int_chars n t :
  py_str_int n = Ok t ->
  Forall (fun c => is_ascii_digit c = true \/ c = MINUS) t.
Proof.
  assert (D : forall u, Forall (fun c => is_ascii_digit c = true \/ c = MINUS)
                          (uint_chars u)).
  { intros u. eapply Forall_impl; [|apply uint_chars_digits]. auto. }
  unfold py_str_int. destruct (Z.to_int n) as [u|u];
    destruct (exceeds_limit _); try discriminate; intros [= <-]; auto.
Qed.

Lemma py_str_int_no_colon n t : py_str_int n = Ok t -> ~ In COLON t.
Proof.
  intros H Hin. apply py_str_int_chars in H. rewrite Forall_forall in H.
  destruct (H _ Hin) as [Hd|Hm]; [|discriminate].
  apply is_ascii_digit_bounds in Hd. unfold COLON in Hd. lia.
Qed.

End RoundTrip.

(** ** More on the normalisers *)

Lemma split_cons_inv sep s p ps :
  split sep s = p :: ps ->
  ~ In sep p
  /\ match ps with
     | [] => s = p
     | _ :: _ => exists rest, s = p ++ sep :: rest /\ split sep rest = ps
     end.
Proof.
  revert p ps. induction s as [|c s IH]; intros p ps; cbn [split].
  - intros [= <- <-]. auto.
  - destruct (N.eqb_spec c sep) as [->|Hc].
    + intros [= <- <-]. split; [auto|].
      destruct (split sep s) as [|q qs] eqn:E.
      * pose proof (split_length sep s) as L. rewrite E in L. discriminate.
      * exists s. auto.
    + destruct (split sep s) as [|q qs] eqn:E.
      * pose proof (split_length sep s) as L. rewrite E in L. discriminate.
      * intros [= <- <-]. destruct (IH q qs eq_refl) as [Hq Hs]. split.
        -- intros [H|H]; [congruence|auto].
        -- destruct qs as [|q' qs]; [now subst|].
           destruct Hs as (rest & -> & Hrest). now exists rest.
Qed.

(** A string that splits in two parts is these parts around a separator. *)
Lemma split_two_parts sep s p t :
  split sep s = [p; t] -> s = p ++ sep :: t /\ ~ In sep p /\ ~ In sep t.
Proof.
  intros H. apply split_cons_inv in H as (Hp & rest & -> & Hrest).
  apply split_cons_inv in Hrest as (Ht & ->). auto.
Qed.

(** Only a string that has a colon at the fourth place starts with the
    prefix once a colon is added behind it. *)
Lemma oss_prefix_before_colon x rest :
  In COLON x ->
  startswith OSS_PREFIX (x ++ COLON :: rest) = true ->
  startswith OSS_PREFIX x = true.
Proof.
  unfold OSS_PREFIX, COLON. intros Hin H.
  destruct x as [|c1 [|c2 [|c3 [|c4 [|c5 [|c6 x]]]]]];
    cbn [app startswith] in H |- *;
    repeat match goal with
           | H : _ && _ = true |- _ => apply andb_true_iff in H as [? ?]
           | H : (_ =? _) = true |- _ => apply N.eqb_eq in H
           end;
    subst; try discriminate; try reflexivity;
    cbn in Hin; intuition discriminate.
Qed.

Section MoreNormalisers.

Context {R : Runtime}.

Lemma In_lstrip x s : In x (lstrip s) -> In x s.
Proof. apply dropwhile_In. Qed.

Lemma In_strip x s : In x (strip s) -> In x s.
Proof.
  unfold strip, rstrip. intros H. apply In_lstrip.
  apply in_rev in H. apply dropwhile_In in H. now apply in_rev.
Qed.

Lemma parse_source_info_raise a e :
  parse_source_info a = Raise e -> e = ValueError.
Proof.
  destruct a as [s|d|]; cbn [parse_source_info]; try congruence.
  destruct (startswith OSS_PREFIX s); [discriminate|].
  destruct (split COLON s) as [|p0 [|p1 ps]]; cbn [bind]; try discriminate.
  destruct (py_int p1) eqn:E; cbn [bind]; [discriminate|].
  intros [= <-]. eapply py_int_raise; eassumption.
Qed.

Lemma parse_cache_rule_raise a e :
  parse_cache_rule a = Raise e -> e = ValueError.
Proof.
  destruct a as [s|d|]; cbn [parse_cache_rule]; try congruence.
  destruct (split COLON s) as [|p [|t [|x l]]]; try congruence.
  destruct (py_int t) eqn:E; cbn [bind]; [discriminate|].
  intros [= <-]. eapply py_int_raise; eassumption.
Qed.

Lemma parse_header_raise a e :
  parse_header a = Raise e -> e = ValueError.
Proof.
  destruct a as [s|d|]; cbn [parse_header]; try congruence.
  destruct (split COLON s) as [|p [|t [|x l]]]; congruence.
Qed.

(** X1.  In an origin shorthand that does not start with the storage
    prefix, what follows a second colon is ignored. *)
Theorem parse_source_info_ignores_third_part a b rest
    (Ha : ~ In COLON a) (Hb : ~ In COLON b)
    (Hoss : startswith OSS_PREFIX (a ++ COLON :: b) = false) :
  parse_source_info (SourceStr (a ++ COLON :: b ++ COLON :: rest)) =
  parse_source_info (SourceStr (a ++ COLON :: b)).
Proof.
  unfold parse_source_info. rewrite Hoss.
  assert (startswith OSS_PREFIX (a ++ COLON :: b ++ COLON :: rest) = false)
    as ->.
  { destruct (startswith OSS_PREFIX (a ++ COLON :: b ++ COLON :: rest))
      eqn:E; [|reflexivity].
    replace (a ++ COLON :: b ++ COLON :: rest)
      with ((a ++ COLON :: b) ++ COLON :: rest) in E
      by (now rewrite <- app_assoc).
    apply oss_prefix_before_colon in E; [congruence|].
    apply in_or_app. right. now left. }
  rewrite !split_app by assumption.
  rewrite (split_no_sep COLON b) by assumption.
  reflexivity.
Qed.

(** X2.  Whatever origin shorthand is accepted, the record has a content;
    its type is oss exactly when the string starts with the storage
    prefix, and then the port is 80; otherwise the content is the text
    before the first colon, and the type is ipaddr or domain as the
    anchored pattern matches the content or not.  A refusal is a
    [ValueError]. *)
Theorem parse_source_info_result s :
  match parse_source_info (SourceStr s) with
  | Ok r =>
      if startswith OSS_PREFIX s
      then type r = OSS /\ port r = 80%Z
           /\ content r = Some (replace OSS_PREFIX [] s)
      else exists c,
             content r = Some c /\ ~ In COLON c
             /\ (s = c \/ exists rest, s = c ++ COLON :: rest)
             /\ type r = (if match_ip c then IPADDR else DOMAIN)
             /\ type r <> OSS
  | Raise e => e = ValueError /\ startswith OSS_PREFIX s = false
  end.
Proof.
  destruct (parse_source_info (SourceStr s)) as [r|e] eqn:E.
  - unfold parse_source_info in E.
    destruct (startswith OSS_PREFIX s).
    + injection E as <-. auto.
    + destruct (split COLON s) as [|c ps] eqn:Es.
      { pose proof (split_length COLON s) as L. rewrite Es in L.
        discriminate. }
      apply split_cons_inv in Es as [Hc Hs].
      cbn [nth] in E.
      assert (exists p, r = {| type := if match_ip c then IPADDR else DOMAIN;
                               content := Some c; port := p |}) as [p ->].
      { destruct ps as [|p1 ps]; [injection E as <-; eauto|].
        destruct (py_int p1); cbn [bind] in E; [|discriminate].
        injection E as <-. eauto. }
      exists c. cbn [content type]. repeat split; auto.
      * destruct ps as [|p1 ps]; [now left|].
        destruct Hs as (rest & -> & _). right. now exists rest.
      * destruct (match_ip c); discriminate.
  - split; [eapply parse_source_info_raise; eassumption|].
    unfold parse_source_info in E.
    destruct (startswith OSS_PREFIX s); [discriminate|reflexivity].
Qed.

(** X3.  An origin shorthand that ends with its only colon has an empty
    port part and is refused. *)
Theorem parse_source_info_empty_port a (Ha : ~ In COLON a) :
  parse_source_info (SourceStr (a ++ [COLON])) = Raise ValueError.
Proof.
  unfold parse_source_info.
  assert (startswith OSS_PREFIX (a ++ [COLON]) = false) as ->.
  { destruct (startswith OSS_PREFIX (a ++ [COLON])) eqn:E; [|reflexivity].
    apply startswith_true in E as [r E]. exfalso.
    assert (In SLASH (a ++ [COLON])) as Hin
      by (rewrite E; unfold OSS_PREFIX; cbn; auto 10).
    apply in_app_or in Hin as [Hin|[Hin|[]]]; [|discriminate].
    assert (In COLON (a ++ [COLON]) -> In COLON a) as G.
    { intros _.
      assert (firstn 4 (a ++ [COLON]) = [111; 115; 115; 58]) as F
        by (rewrite E; reflexivity).
      destruct a as [|c1 [|c2 [|c3 [|c4 a]]]]; cbn in F;
        try discriminate; injection F as -> -> -> ->.
      cbn. auto. }
    apply Ha, G, in_or_app. right. now left. }
  rewrite split_app by assumption. reflexivity.
Qed.

(** X4.  A cache rule accepted from a shorthand string came from a string
    with exactly one colon; its path pattern starts with a slash, has no
    colon, and is the text before the colon, with a slash put in front
    unless it had one; its ttl is [int] of the text after the colon. *)
Theorem parse_cache_rule_accepted rule r
    (Hparse : parse_cache_rule (RuleStr rule) = Ok r) :
  exists pattern ttl_part,
    rule = pattern ++ COLON :: ttl_part
    /\ ~ In COLON pattern /\ ~ In COLON ttl_part
    /\ py_int ttl_part = Ok (ttl r)
    /\ path_pattern r =
         (if startswith [SLASH] pattern then pattern else SLASH :: pattern)
    /\ startswith [SLASH] (path_pattern r) = true
    /\ ~ In COLON (path_pattern r).
Proof.
  unfold parse_cache_rule in Hparse.
  destruct (split COLON rule) as [|p [|t [|x l]]] eqn:E; try discriminate.
  apply split_two_parts in E as (-> & Hp & Ht).
  destruct (py_int t) as [n|e] eqn:En; cbn [bind] in Hparse;
    [|discriminate].
  assert (Hr : r = {| path_pattern := if startswith [SLASH] p then p
                                      else SLASH :: p;
                      ttl := n |}) by congruence.
  clear Hparse. subst r. exists p, t. cbn [ttl path_pattern].
  split; [reflexivity|]. split; [exact Hp|]. split; [exact Ht|].
  split; [exact En|]. split; [reflexivity|].
  destruct (startswith [SLASH] p) eqn:Es.
  - auto.
  - split; [cbn [startswith]; now rewrite N.eqb_refl|].
    intros [H|H]; [discriminate|auto].
Qed.

(** X5.  Normalising is idempotent on cache rules: a rule whose path
    pattern starts with a slash and has no colon, printed as
    [path:ttl], is parsed back to itself. *)
Theorem parse_cache_rule_round_trip r t
    (Hslash : startswith [SLASH] (path_pattern r) = true)
    (Hcolon : ~ In COLON (path_pattern r))
    (Hstr : py_str_int (ttl r) = Ok t) :
  parse_cache_rule (RuleStr (path_pattern r ++ COLON :: t)) = Ok r.
Proof.
  unfold parse_cache_rule.
  rewrite split_app, split_no_sep
    by eauto using py_str_int_no_colon.
  rewrite (py_int_py_str_int _ _ Hstr). cbn [bind].
  rewrite Hslash. now destruct r.
Qed.

(** X6.  A header accepted from a shorthand string has a key and a value
    without colon and without whitespace at either end, and printing it
    as [key:value] parses back to the same header. *)
Theorem parse_header_accepted header r
    (Hparse : parse_header (HeaderStr header) = Ok r) :
  ~ In COLON (key r) /\ ~ In COLON (value r)
  /\ strip (key r) = key r /\ strip (value r) = value r
  /\ parse_header (HeaderStr (key r ++ COLON :: value r)) = Ok r.
Proof.
  unfold parse_header in Hparse.
  destruct (split COLON header) as [|k [|v [|x l]]] eqn:E; try discriminate.
  apply split_two_parts in E as (-> & Hk & Hv).
  injection Hparse as <-. cbn [key value].
  assert (Hk' : ~ In COLON (strip k)) by (intros H; now apply In_strip in H).
  assert (Hv' : ~ In COLON (strip v)) by (intros H; now apply In_strip in H).
  repeat split; auto using strip_idempotent.
  unfold parse_header. rewrite split_app, split_no_sep by assumption.
  now rewrite !strip_idempotent.
Qed.

End MoreNormalisers.

(** ** The operations and the provider *)


Lemma map_result_refused {A B} (f : A -> result B) xs :
  (forall x e, f x = Raise e -> e = ValueError) ->
  Exists (fun x => exists e, f x = Raise e) xs ->
  map_result f xs = Raise ValueError.
Proof.
  intros Hf H. induction H as [x xs [e He]|x xs _ IH]; cbn [map_result].
  - rewrite He. cbn [bind]. now rewrite (Hf _ _ He).
  - destruct (f x) as [y|e] eqn:E; cbn [bind].
    + now rewrite IH.
    + now rewrite (Hf _ _ E).
Qed.


Section MoreOperations.

Context {R : Runtime}.

Variable cdn_client : list Call -> Call -> bool.






(** X8.  One origin of the list that is refused is enough for
    [add_cdn_domain] to raise [ValueError] without a request. *)
Theorem add_cdn_domain_refused domain_name sources cdn_type log
    (H : Exists (fun s => exists e, parse_source_info s = Raise e) sources) :
  add_cdn_domain cdn_client domain_name (SourceList sources) cdn_type log
  = (Raise ValueError, log).
Proof.
  unfold add_cdn_domain, bindM, lift.
  rewrite map_result_refused;
    [reflexivity|apply parse_source_info_raise|exact H].
Qed.

(** X9.  One cache rule of the list that is refused is enough for
    [set_cdn_cache] to raise [ValueError] without a request: the rules
    before it are not applied. *)
Theorem set_cdn_cache_refused domain_name rules log
    (H : Exists (fun s => exists e, parse_cache_rule s = Raise e) rules) :
  set_cdn_cache cdn_client domain_name (RuleList rules) log
  = (Raise ValueError, log).
Proof.
  unfold set_cdn_cache, bindM, lift.
  rewrite map_result_refused;
    [reflexivity|apply parse_cache_rule_raise|exact H].
Qed.

(** X10.  One header of the list that is refused is enough for
    [set_cdn_headers] to raise [ValueError] without a request. *)
Theorem set_cdn_headers_refused domain_name headers log
    (H : Exists (fun s => exists e, parse_header s = Raise e) headers) :
  set_cdn_headers cdn_client domain_name (HeaderList headers) log
  = (Raise ValueError, log).
Proof.
  unfold set_cdn_headers, bindM, lift.
  rewrite map_result_refused;
    [reflexivity|apply parse_header_raise|exact H].
Qed.


(** X12.  [set_cdn_source_port] sends the port as decimal text that
    [int] reads back as the port: a negative port or port 0 is sent as it
    is. *)
Theorem set_cdn_source_port_request domain_name port v log
    (Hv : py_str_int port = Ok v) :
  let c := BatchSetCdnDomainConfig
             {| domain_names := domain_name;
                functions :=
                  [ {| functionArgs := [ {| argName := PORT; argValue := v |} ];
                       functionName := ORIGIN_PORT |} ] |} in
  set_cdn_source_port cdn_client domain_name port log
  = (if cdn_client log c
     then Ok (MSG_DOMAIN ++ domain_name ++ MSG_PORT_SET)
     else Raise ServiceFailure,
     log ++ [c])
  /\ py_int v = Ok port.
Proof.
  intros c. split; [|now apply py_int_py_str_int].
  unfold set_cdn_source_port, batch_set, bindM, lift, call, ret.
  rewrite Hv. fold c. now destruct (cdn_client log c).
Qed.

End MoreOperations.

(** ** More on the extractor *)

(** The extensions of the three pattern groups. *)
Definition known_extensions : list str :=
  split COMMA IMAGE_PATTERN ++ split COMMA VIDEO_PATTERN
  ++ split COMMA ANY_PATTERN.

Section DraftInvariant.

Context {R : Runtime}.

(** Four digit runs separated by dots. *)
Definition quad_text (m : str) : Prop :=
  exists a b c d,
    m = a ++ DOT :: b ++ DOT :: c ++ DOT :: d
    /\ digit_run a /\ digit_run b /\ digit_run c /\ digit_run d.

(** A cache-rule string of the extractor: a known extension, a colon and
    the decimal text of a ttl that is a whole number of hours. *)
Definition rule_ok (s : str) : Prop :=
  exists ext hours t,
    s = ext ++ COLON :: t
    /\ In ext known_extensions
    /\ (0 <= hours)%Z
    /\ py_str_int (hours * 3600) = Ok t.

(** What the loop keeps true of its variables. *)
Definition draft_ok (d : Draft) : Prop :=
  (cdn_type d = None
   \/ In (cdn_type d) [Some DOWNLOAD; Some WEB; Some LIVE; Some VIDEO])
  /\ (source_type d = None
      \/ In (source_type d) [Some IPADDR; Some DOMAIN; Some OSS])
  /\ (forall ip, source_ip d = Some ip -> quad_text ip)
  /\ (forall p, source_port d = Some p -> (0 <= p)%Z)
  /\ Forall rule_ok (cache_rules d).

Lemma findall_quad_from_In k s m :
  In m (findall_quad_from k s) -> quad_text m.
Proof.
  revert k. induction s as [|x s IH]; intros k; cbn [findall_quad_from];
    [intros []|].
  destruct k as [|k]; [|apply IH].
  destruct (match_quad (x :: s)) as [m0|] eqn:E; [|apply IH].
  intros [<-|H]; [|eapply IH; eassumption].
  apply match_quad_sound in E
    as (a & b & c & d & rest & -> & _ & Ha & Hb & Hc & Hd).
  now exists a, b, c, d.
Qed.

Lemma first_run_nonneg line r n :
  item0 (findall_digits line) = Ok r -> py_int r = Ok n -> (0 <= n)%Z.
Proof.
  rewrite item0_findall_digits. intros Hr Hn.
  apply (py_int_nonneg _ _ Hn). intros Hin.
  assert (Forall (fun c => isdecimal c = true) r) as F.
  { destruct (first_digit_run line) eqn:E; [discriminate|].
    injection Hr as <-. rewrite <- E. apply takewhile_all. }
  rewrite Forall_forall in F. apply F in Hin.
  now rewrite isdecimal_ascii in Hin.
Qed.

Lemma cache_hours_nonneg line hours :
  cache_hours line = Ok hours -> (0 <= hours)%Z.
Proof.
  unfold cache_hours. destruct (contains M_HOUR line).
  - destruct (item0 (findall_digits line)) as [r|] eqn:E; cbn [bind];
      [|discriminate].
    eauto using first_run_nonneg.
  - destruct (contains M_DAY line); [|intros [= <-]; lia].
    destruct (item0 (findall_digits line)) as [r|] eqn:E; cbn [bind];
      [|discriminate].
    destruct (py_int r) as [n|] eqn:En; cbn [bind]; [|discriminate].
    intros [= <-]. pose proof (first_run_nonneg _ _ _ E En). lia.
Qed.

Lemma cache_pattern_known line ext :
  In ext (split COMMA (cache_pattern line)) -> In ext known_extensions.
Proof.
  unfold cache_pattern, known_extensions. intros H.
  destruct (contains M_IMAGE line); [apply in_or_app; now left|].
  apply in_or_app. right.
  destruct (contains M_VIDEO line); apply in_or_app; auto.
Qed.

Lemma map_cache_rule_string_inv ttl exts rules :
  map_result (cache_rule_string ttl) exts = Ok rules ->
  Forall (fun s => exists ext t,
            In ext exts /\ py_str_int ttl = Ok t /\ s = ext ++ COLON :: t)
    rules.
Proof.
  revert rules. induction exts as [|ext exts IH]; intros rules;
    cbn [map_result].
  - intros [= <-]. constructor.
  - unfold cache_rule_string at 1.
    destruct (py_str_int ttl) as [t|] eqn:E; cbn [bind]; [|discriminate].
    destruct (map_result _ exts) as [rs|] eqn:Ers; cbn [bind];
      [|discriminate].
    intros [= <-]. constructor.
    + exists ext, t. cbn. auto.
    + eapply Forall_impl; [|apply (IH rs eq_refl)].
      intros s (ext' & t' & Hin & Ht & ->). exists ext', t'. cbn. auto.
Qed.

Lemma on_cache_rules_ok d line d' :
  on_cache d line = Ok d' ->
  exists rules, d' = add_cache_rules rules d /\ Forall rule_ok rules.
Proof.
  unfold on_cache.
  destruct (cache_hours line) as [hours|] eqn:Eh; cbn [bind];
    [|discriminate].
  destruct (map_result _ _) as [rules|] eqn:Er; cbn [bind]; [|discriminate].
  intros [= <-]. exists rules. split; [reflexivity|].
  eapply Forall_impl; [|apply (map_cache_rule_string_inv _ _ _ Er)].
  intros s (ext & t & Hin & Ht & ->). exists ext, hours, t.
  split; [reflexivity|]. split; [now apply (cache_pattern_known line)|].
  split; [now apply (cache_hours_nonneg line)|exact Ht].
Qed.

Lemma handle_draft_ok c d line d' :
  draft_ok d -> handle c d line = Ok d' -> draft_ok d'.
Proof.
  intros (Hct & Hst & Hip & Hport & Hrules).
  destruct c; cbn [handle].
  - unfold on_domain. intros [= <-]. repeat split; auto.
  - unfold on_cdn_type.
    repeat match goal with
           | |- context [if ?b then _ else _] => destruct b
           end;
      intros [= <-]; repeat split; auto; right; cbn; auto.
  - unfold on_source_type.
    repeat match goal with
           | |- context [if ?b then _ else _] => destruct b
           end;
      intros [= <-]; repeat split; auto; right; cbn; auto.
  - unfold on_source_ip, findall_quad.
    destruct (findall_quad_from 0 line) as [|m ms] eqn:E; cbn [item0 bind];
      [discriminate|].
    intros [= <-]. repeat split; auto.
    cbn [source_ip set_source_ip]. intros ip [= <-].
    apply (findall_quad_from_In 0 line). rewrite E. now left.
  - unfold on_source_port.
    destruct (item0 (findall_digits line)) as [r|] eqn:E; cbn [bind];
      [|discriminate].
    destruct (py_int r) as [n|] eqn:En; cbn [bind]; [|discriminate].
    intros [= <-]. repeat split; auto.
    cbn [source_port set_source_port]. intros p [= <-].
    eauto using first_run_nonneg.
  - intros H. apply on_cache_rules_ok in H as (rules & -> & Hr).
    repeat split; auto. cbn [cache_rules add_cache_rules].
    apply Forall_app. auto.
Qed.

Lemma scan_draft_ok_from lines d d' :
  draft_ok d -> scan d lines = Ok d' -> draft_ok d'.
Proof.
  revert d. induction lines as [|line lines IH]; intros d Hd;
    cbn [scan]; [now intros [= <-]|].
  destruct (process_line d line) as [d1|] eqn:E; cbn [bind]; [|discriminate].
  apply IH. rewrite process_line_dispatch in E.
  destruct (classify line) as [c|]; [|now injection E as <-].
  eapply handle_draft_ok; eassumption.
Qed.

Lemma empty_draft_ok : draft_ok empty_draft.
Proof.
  repeat split; cbn; auto; discriminate.
Qed.

(** X13.  Whatever the text, a loop that ends leaves an acceleration
    type among download, web, live and video, an origin type among ipaddr,
    domain and oss, an origin address made of four digit runs separated
    by dots, a port that is not negative, and cache rules made of a known
    extension, a colon and the ttl of a whole, not negative number of
    hours. *)
Theorem scan_draft_ok lines d
    (Hscan : scan empty_draft lines = Ok d) :
  draft_ok d.
Proof. eapply scan_draft_ok_from; [apply empty_draft_ok|exact Hscan]. Qed.

End DraftInvariant.

(** ** From the extractor to the provider *)

Lemma known_extension_shape ext :
  In ext known_extensions ->
  ~ In COLON ext /\ startswith [SLASH] ext = false.
Proof.
  intros H. cbv in H.
  repeat (destruct H as [<-|H];
          [split; [cbv; intuition discriminate|reflexivity]|]).
  destruct H.
Qed.

Lemma split_pieces sep s p : In p (split sep s) -> ~ In sep p.
Proof.
  revert p. induction s as [|c s IH]; intros p; cbn [split].
  - intros [<-|[]]. auto.
  - destruct (N.eqb_spec c sep) as [->|Hc].
    + intros [<-|H]; auto.
    + destruct (split sep s) as [|q qs] eqn:E.
      * intros [<-|[]]. intros [H|[]]. congruence.
      * intros [<-|H].
        -- intros [H|H]; [congruence|]. revert H. apply IH. now left.
        -- apply IH. now right.
Qed.

Lemma split_pieces_chars sep s p c :
  In p (split sep s) -> In c p -> In c s.
Proof.
  revert p. induction s as [|x s IH]; intros p; cbn [split].
  - intros [<-|[]] [].
  - destruct (N.eqb_spec x sep) as [->|Hx].
    + intros [<-|H]; [intros []|]. intros Hc. right. eapply IH; eassumption.
    + destruct (split sep s) as [|q qs] eqn:E.
      * intros [<-|[]] [->|[]]. now left.
      * intros [<-|H] Hc.
        -- destruct Hc as [->|Hc]; [now left|]. right.
           apply (IH q); [now left|assumption].
        -- right. apply (IH p); [now right|assumption].
Qed.

Section Hand_over.

Context {R : Runtime}.

Variable cdn_client : list Call -> Call -> bool.

(** A rule string of the extractor is accepted, with a slash put before
    the extension, and its ttl is printed again as it was. *)
Lemma rule_ok_accepted s :
  rule_ok s ->
  exists ext hours t,
    In ext known_extensions /\ (0 <= hours)%Z
    /\ parse_cache_rule (RuleStr s) =
         Ok {| path_pattern := SLASH :: ext; ttl := (hours * 3600)%Z |}
    /\ rule_args {| path_pattern := SLASH :: ext; ttl := (hours * 3600)%Z |} =
         Ok [ {| argName := TTL; argValue := t |};
              {| argName := PATH; argValue := SLASH :: ext |} ].
Proof.
  intros (ext & hours & t & -> & Hext & Hh & Ht).
  destruct (known_extension_shape _ Hext) as [Hc Hs].
  exists ext, hours, t. repeat split; auto.
  - unfold parse_cache_rule.
    rewrite split_app, split_no_sep by eauto using py_str_int_no_colon.
    rewrite (py_int_py_str_int _ _ Ht). cbn [bind]. now rewrite Hs.
  - unfold rule_args. cbn [ttl path_pattern]. now rewrite Ht.
Qed.

(** The rules the extractor hands over. *)
Definition handed_over (r : CacheRule) : Prop :=
  exists ext hours,
    In ext known_extensions /\ (0 <= hours)%Z
    /\ r = {| path_pattern := SLASH :: ext; ttl := (hours * 3600)%Z |}.

Lemma rules_ok_accepted rules :
  Forall rule_ok rules ->
  exists parsed args,
    map_result parse_cache_rule (map RuleStr rules) = Ok parsed
    /\ map_result rule_args parsed = Ok args
    /\ Forall handed_over parsed
    /\ List.length (concat args) = (2 * List.length rules)%nat.
Proof.
  induction 1 as [|s rules Hs _ (parsed & args & Hp & Ha & Hf & Hl)].
  - exists [], []. cbn. auto.
  - destruct (rule_ok_accepted s Hs) as (ext & hours & t & He & Hh & P & A).
    eexists (_ :: parsed), (_ :: args).
    cbn [map map_result]. rewrite P, Hp. cbn [bind map_result].
    rewrite A, Ha. cbn [bind]. repeat split.
    + constructor; [|exact Hf]. now exists ext, hours.
    + cbn [concat app List.length]. rewrite Hl. cbn. lia.
Qed.

(** X14.  Every cache rule the loop has built is accepted by
    [set_cdn_cache]: it parses to a path made of a slash and a known
    extension with a ttl of a whole, not negative number of hours, and its
    arguments can be printed. *)
Theorem extractor_rules_accepted lines d
    (Hscan : scan empty_draft lines = Ok d) :
  exists parsed args,
    map_result parse_cache_rule (map RuleStr (cache_rules d)) = Ok parsed
    /\ map_result rule_args parsed = Ok args
    /\ Forall handed_over parsed
    /\ List.length (concat args) = (2 * List.length (cache_rules d))%nat.
Proof.
  apply rules_ok_accepted.
  apply (scan_draft_ok_from _ _ _ empty_draft_ok Hscan).
Qed.

(** X15.  After a loop that ended with a domain name, the extractor asks
    the provider to add the domain; when that fails it stops there; when
    it succeeds and there are cache rules, it asks for the cache
    function, with two arguments per rule, and a failure of that second
    request leaves the first one done.  The message returned names the
    first request only. *)
Theorem setup_after_scan text d c n log
    (Hscan : scan empty_draft (lines_of text) = Ok d)
    (Hname : domain_name d = Some (c :: n)) :
  exists args,
    List.length args = (2 * List.length (cache_rules d))%nat
    /\ let name := c :: n in
       let add :=
         AddCdnDomain {| add_domain_name := name;
                         add_sources := [build_source d];
                         add_cdn_type := or_str (cdn_type d) WEB |} in
       let set :=
         BatchSetCdnDomainConfig
           {| domain_names := name;
              functions := [ {| functionArgs := args;
                                functionName := CACHE_TTL |} ] |} in
       let done := Ok (MSG_DONE ++ MSG_DOMAIN ++ name ++ MSG_ADDED) in
       setup_cdn_with_text cdn_client text log =
         if cdn_client log add then
           match cache_rules d with
           | [] => (done, log ++ [add])
           | _ :: _ =>
               (if cdn_client (log ++ [add]) set then done
                else Raise ServiceFailure,
                log ++ [add; set])
           end
         else (Raise ServiceFailure, log ++ [add]).
Proof.
  destruct (rules_ok_accepted (cache_rules d))
    as (parsed & args & Hp & Ha & _ & Hl).
  { apply (scan_draft_ok_from _ _ _ empty_draft_ok Hscan). }
  exists (concat args). split; [exact Hl|].
  intros name add set done.
  unfold setup_cdn_with_text. unfold bindM at 1. unfold lift.
  rewrite Hscan, Hname. unfold bindM at 1.
  rewrite add_cdn_domain_dict. fold name. fold add.
  destruct (cdn_client log add); [|reflexivity].
  unfold bindM at 1.
  destruct (cache_rules d) as [|rule rules] eqn:Er; [reflexivity|].
  unfold bindM at 1. unfold set_cdn_cache, bindM, lift, call, ret.
  rewrite Hp, Ha. fold set.
  rewrite <- app_assoc. cbn [app].
  now destruct (cdn_client (log ++ [add]) set).
Qed.

(** X16.  The origin built after the loop has a port that is positive (a
    port 0 read from the text becomes 80), a type among ipaddr, domain and
    oss, and a content that is absent or four digit runs separated by
    dots. *)
Theorem build_source_ok lines d
    (Hscan : scan empty_draft lines = Ok d) :
  (0 < port (build_source d))%Z
  /\ In (type (build_source d)) [IPADDR; DOMAIN; OSS]
  /\ (forall ip, content (build_source d) = Some ip -> quad_text ip).
Proof.
  destruct (scan_draft_ok_from _ _ _ empty_draft_ok Hscan)
    as (_ & Hst & Hip & Hport & _).
  unfold build_source. cbn [port type content]. split; [|split].
  - unfold or_int. destruct (source_port d) as [p|]; [|lia].
    specialize (Hport p eq_refl). destruct p; lia.
  - destruct Hst as [->|H]; [cbn; auto|].
    cbn in H. destruct H as [<-|[<-|[<-|[]]]]; cbn; auto.
  - exact Hip.
Qed.

(** X17.  Of several lines with the domain suffix the last one gives the
    domain name. *)
Theorem scan_last_domain before line after d0 d
    (Hline : contains M_DOMAIN_SUFFIX line = true)
    (Hafter : Forall (fun l => contains M_DOMAIN_SUFFIX l = false) after)
    (Hscan : scan d0 (before ++ line :: after) = Ok d) :
  domain_name d = Some (strip line).
Proof.
  rewrite scan_app in Hscan.
  destruct (scan d0 before) as [d1|]; cbn [bind scan] in Hscan;
    [|discriminate].
  unfold process_line in Hscan. rewrite Hline in Hscan.
  unfold on_domain in Hscan. cbn [bind] in Hscan.
  now rewrite (scan_keeps_domain _ _ _ Hafter Hscan).
Qed.

(** A line of no category, or of the domain category, changes nothing but
    the domain name. *)
Lemma scan_domain_only lines d :
  Forall (fun l => classify l = Some DomainSuffix \/ classify l = None)
    lines ->
  exists name,
    scan d lines =
      Ok {| domain_name := name; cdn_type := cdn_type d;
            source_type := source_type d; source_ip := source_ip d;
            source_port := source_port d; cache_rules := cache_rules d |}.
Proof.
  intros H. revert d. induction H as [|line lines Hl _ IH]; intros d.
  - exists (domain_name d). now destruct d.
  - cbn [scan]. rewrite process_line_dispatch.
    destruct Hl as [-> | ->]; cbn [handle bind]; [|apply IH].
    unfold on_domain. cbn [bind].
    destruct (IH (set_domain_name (strip line) d)) as [name ->].
    now exists name.
Qed.

(** X18.  A text whose lines have the domain suffix or no marker at all:
    the domain is added with the origin type ipaddr, no origin address,
    port 80 and the acceleration type web, and nothing else is asked. *)
Theorem setup_domain_only text log
    (Hlines : Forall (fun l => classify l = Some DomainSuffix
                               \/ classify l = None) (lines_of text))
    (Hdomain : Exists (fun l => classify l = Some DomainSuffix)
                 (lines_of text)) :
  exists name,
    let add :=
      AddCdnDomain {| add_domain_name := name;
                      add_sources := [ {| type := IPADDR;
                                          content := None;
                                          port := 80 |} ];
                      add_cdn_type := WEB |} in
    setup_cdn_with_text cdn_client text log =
      (if cdn_client log add
       then Ok (MSG_DONE ++ MSG_DOMAIN ++ name ++ MSG_ADDED)
       else Raise ServiceFailure,
       log ++ [add]).
Proof.
  destruct (scan_domain_only _ empty_draft Hlines) as [name Hscan].
  cbn [cdn_type source_type source_ip source_port cache_rules empty_draft]
    in Hscan.
  assert (Hex : Exists (fun l => contains M_DOMAIN_SUFFIX l = true)
                  (lines_of text)).
  { eapply Exists_impl; [|exact Hdomain]. intros l. apply classify_domain. }
  destruct (scan_domain _ _ _ (lines_of_stripped text) Hscan (or_introl Hex))
    as (c & n & Hn).
  cbn [domain_name] in Hn. subst name. exists (c :: n). intros add.
  unfold setup_cdn_with_text. unfold bindM at 1. unfold lift.
  rewrite Hscan. cbn [domain_name]. unfold bindM at 1.
  rewrite add_cdn_domain_dict. unfold build_source.
  cbn [source_type source_ip source_port cdn_type cache_rules or_str or_int].
  fold add. now destruct (cdn_client log add).
Qed.

(** X19.  The lines the loop sees are not empty, have no whitespace at
    either end and no newline in them. *)
Theorem lines_of_clean text :
  Forall (fun l => l <> [] /\ strip l = l /\ ~ In NEWLINE l) (lines_of text).
Proof.
  apply Forall_forall. intros l Hin.
  pose proof (lines_of_stripped text) as S. rewrite Forall_forall in S.
  destruct (S l Hin) as [Hs Hne]. repeat split; auto.
  unfold lines_of in Hin. apply in_map_iff in Hin as (piece & <- & Hp).
  apply filter_In in Hp as [Hp _]. intros H. apply In_strip in H.
  exact (split_pieces _ _ _ Hp H).
Qed.

Lemma filter_none {A} (f : A -> bool) l :
  (forall x, In x l -> f x = false) -> filter f l = [].
Proof.
  induction l as [|x l IH]; intros H; cbn [filter]; [reflexivity|].
  rewrite (H x) by now left. apply IH. intros y Hy. apply H. now right.
Qed.

Lemma dropwhile_all p s :
  Forall (fun c => p c = true) s -> dropwhile p s = [].
Proof.
  induction 1 as [|c s Hc _ IH]; cbn [dropwhile]; [reflexivity|].
  now rewrite Hc.
Qed.

(** X20.  A text of whitespace only, the empty text included, has no line:
    the failure message is returned and the provider is not called. *)
Theorem setup_blank text log
    (Hblank : Forall (fun c => isspace c = true) text) :
  lines_of text = []
  /\ setup_cdn_with_text cdn_client text log = (Ok MSG_NO_DOMAIN, log).
Proof.
  assert (L : lines_of text = []).
  { unfold lines_of.
    rewrite (filter_none _ (split NEWLINE text)); [reflexivity|].
    intros piece Hp.
    assert (strip piece = []) as ->; [|reflexivity].
    unfold strip, lstrip. rewrite dropwhile_all; [reflexivity|].
    apply Forall_forall. intros c Hc.
    rewrite Forall_forall in Hblank. apply Hblank.
    eapply split_pieces_chars; eassumption. }
  split; [exact L|].
  unfold setup_cdn_with_text, bindM, lift. rewrite L. reflexivity.
Qed.

End Hand_over.

(** ** The further properties on CPython 3.11 *)

Lemma parse_source_info_ignores_third_part_witness :
  parse_source_info (R := cpython311)
    (SourceStr (utf8 "example.com" ++ COLON :: utf8 "8080"
                ++ COLON :: utf8 "junk"))
  = parse_source_info (R := cpython311)
      (SourceStr (utf8 "example.com" ++ COLON :: utf8 "8080")).
Proof.
  refine (parse_source_info_ignores_third_part (R := cpython311)
            (utf8 "example.com") (utf8 "8080") (utf8 "junk") _ _ _).
  - vm_compute. intuition discriminate.
  - vm_compute. intuition discriminate.
  - vm_compute. reflexivity.
Defined.

Lemma parse_source_info_empty_port_witness :
  parse_source_info (R := cpython311)
    (SourceStr (utf8 "example.com" ++ [COLON]))
  = Raise ValueError.
Proof.
  refine (parse_source_info_empty_port (R := cpython311)
            (utf8 "example.com") _).
  vm_compute. intuition discriminate.
Defined.

Lemma parse_cache_rule_accepted_witness :
  exists pattern ttl_part,
    utf8 "*.jpg:3600" = pattern ++ COLON :: ttl_part
    /\ ~ In COLON pattern /\ ~ In COLON ttl_part
    /\ py_int (R := cpython311) ttl_part
       = Ok (ttl {| path_pattern := utf8 "/*.jpg"; ttl := 3600 |})
    /\ path_pattern {| path_pattern := utf8 "/*.jpg"; ttl := 3600 |} =
         (if startswith [SLASH] pattern then pattern else SLASH :: pattern)
    /\ startswith [SLASH]
         (path_pattern {| path_pattern := utf8 "/*.jpg"; ttl := 3600 |})
       = true
    /\ ~ In COLON (path_pattern {| path_pattern := utf8 "/*.jpg";
                                    ttl := 3600 |}).
Proof.
  refine (parse_cache_rule_accepted (R := cpython311) (utf8 "*.jpg:3600")
            {| path_pattern := utf8 "/*.jpg"; ttl := 3600 |} _).
  vm_compute. reflexivity.
Defined.

Lemma parse_cache_rule_round_trip_witness :
  parse_cache_rule (R := cpython311) (RuleStr (utf8 "/*.jpg:3600"))
  = Ok {| path_pattern := utf8 "/*.jpg"; ttl := 3600 |}.
Proof.
  refine (parse_cache_rule_round_trip (R := cpython311)
            {| path_pattern := utf8 "/*.jpg"; ttl := 3600 |}
            (utf8 "3600") _ _ _).
  - vm_compute. reflexivity.
  - vm_compute. intuition discriminate.
  - vm_compute. reflexivity.
Defined.

Lemma parse_header_accepted_witness :
  let r := {| key := utf8 "Content-Type"; value := utf8 "text/html" |} in
  ~ In COLON (key r) /\ ~ In COLON (value r)
  /\ strip (R := cpython311) (key r) = key r
  /\ strip (R := cpython311) (value r) = value r
  /\ parse_header (R := cpython311) (HeaderStr (key r ++ COLON :: value r))
     = Ok r.
Proof.
  refine (parse_header_accepted (R := cpython311)
            (utf8 "Content-Type: text/html")
            {| key := utf8 "Content-Type"; value := utf8 "text/html" |} _).
  vm_compute. reflexivity.
Defined.

Lemma add_cdn_domain_refused_witness :
  add_cdn_domain (R := cpython311) accepting (utf8 "demo.xiangyuncdn.com")
    (SourceList [ SourceStr (utf8 "1.2.3.4:80");
                  SourceStr (utf8 "example.com:http") ])
    WEB []
  = (Raise ValueError, []).
Proof.
  refine (add_cdn_domain_refused (R := cpython311) accepting _ _ _ _ _).
  apply Exists_cons_tl, Exists_cons_hd.
  exists ValueError. vm_compute. reflexivity.
Defined.

Lemma set_cdn_cache_refused_witness :
  set_cdn_cache (R := cpython311) accepting (utf8 "demo.xiangyuncdn.com")
    (RuleList [ RuleStr (utf8 "*.jpg:3600"); RuleStr (utf8 "*.png") ]) []
  = (Raise ValueError, []).
Proof.
  refine (set_cdn_cache_refused (R := cpython311) accepting _ _ _ _).
  apply Exists_cons_tl, Exists_cons_hd.
  exists ValueError. vm_compute. reflexivity.
Defined.

Lemma set_cdn_headers_refused_witness :
  set_cdn_headers (R := cpython311) accepting (utf8 "demo.xiangyuncdn.com")
    (HeaderList [ HeaderStr (utf8 "Cache-Control:no-cache");
                  HeaderStr (utf8 "X-Frame-Options") ]) []
  = (Raise ValueError, []).
Proof.
  refine (set_cdn_headers_refused (R := cpython311) accepting _ _ _ _).
  apply Exists_cons_tl, Exists_cons_hd.
  exists ValueError. vm_compute. reflexivity.
Defined.


Lemma set_cdn_source_port_request_witness :
  let c := BatchSetCdnDomainConfig
             {| domain_names := utf8 "demo.xiangyuncdn.com";
                functions :=
                  [ {| functionArgs :=
                         [ {| argName := PORT; argValue := utf8 "443" |} ];
                       functionName := ORIGIN_PORT |} ] |} in
  set_cdn_source_port (R := cpython311) accepting
    (utf8 "demo.xiangyuncdn.com") 443 []
  = (if accepting [] c
     then Ok (MSG_DOMAIN ++ utf8 "demo.xiangyuncdn.com" ++ MSG_PORT_SET)
     else Raise ServiceFailure,
     [] ++ [c])
  /\ py_int (R := cpython311) (utf8 "443") = Ok 443%Z.
Proof.
  refine (set_cdn_source_port_request (R := cpython311) accepting
            (utf8 "demo.xiangyuncdn.com") 443 (utf8 "443") [] _).
  vm_compute. reflexivity.
Defined.

(** The lines of the docstring of [setup_cdn_with_text]. *)
Definition docstring_text : str :=
  utf8 "帮我添加一个加速域名" ++ NEWLINE ::
  utf8 "加速类型为 大文件下载" ++ NEWLINE ::
  utf8 "mygslb04.xiangyuncdn.com" ++ NEWLINE ::
  utf8 "源站类型，ipaddr" ++ NEWLINE ::
  utf8 "源站的IP地址 211.131.56.91" ++ NEWLINE ::
  utf8 "回源端口 81" ++ NEWLINE ::
  utf8 "设置图片缓存1小时".

Definition docstring_draft : Draft :=
  {| domain_name := Some (utf8 "mygslb04.xiangyuncdn.com");
     cdn_type := Some DOWNLOAD;
     source_type := Some IPADDR;
     source_ip := Some (utf8 "211.131.56.91");
     source_port := Some 81%Z;
     cache_rules := [ utf8 "*.jpg:3600"; utf8 "*.jpeg:3600";
                      utf8 "*.png:3600"; utf8 "*.gif:3600" ] |}.

Lemma scan_draft_ok_witness : draft_ok (R := cpython311) docstring_draft.
Proof.
  refine (scan_draft_ok (R := cpython311)
            (lines_of (R := cpython311) docstring_text) docstring_draft _).
  vm_compute. reflexivity.
Defined.

Lemma extractor_rules_accepted_witness :
  exists parsed args,
    map_result (parse_cache_rule (R := cpython311))
      (map RuleStr (cache_rules docstring_draft)) = Ok parsed
    /\ map_result (rule_args (R := cpython311)) parsed = Ok args
    /\ Forall handed_over parsed
    /\ List.length (concat args)
       = (2 * List.length (cache_rules docstring_draft))%nat.
Proof.
  refine (extractor_rules_accepted (R := cpython311)
            (lines_of (R := cpython311) docstring_text) docstring_draft _).
  vm_compute. reflexivity.
Defined.

Lemma setup_after_scan_witness :
  exists args,
    List.length args = (2 * List.length (cache_rules docstring_draft))%nat
    /\ let name := utf8 "mygslb04.xiangyuncdn.com" in
       let add :=
         AddCdnDomain {| add_domain_name := name;
                         add_sources := [build_source docstring_draft];
                         add_cdn_type :=
                           or_str (cdn_type docstring_draft) WEB |} in
       let set :=
         BatchSetCdnDomainConfig
           {| domain_names := name;
              functions := [ {| functionArgs := args;
                                functionName := CACHE_TTL |} ] |} in
       let done := Ok (MSG_DONE ++ MSG_DOMAIN ++ name ++ MSG_ADDED) in
       setup_cdn_with_text (R := cpython311) accepting docstring_text [] =
         if accepting [] add then
           match cache_rules docstring_draft with
           | [] => (done, [] ++ [add])
           | _ :: _ =>
               (if accepting ([] ++ [add]) set then done
                else Raise ServiceFailure,
                [] ++ [add; set])
           end
         else (Raise ServiceFailure, [] ++ [add]).
Proof.
  refine (setup_after_scan (R := cpython311) accepting docstring_text
            docstring_draft 109 (utf8 "ygslb04.xiangyuncdn.com") [] _ _).
  - vm_compute. reflexivity.
  - reflexivity.
Defined.

Lemma build_source_ok_witness :
  let d := set_source_port 0 empty_draft in
  (0 < port (build_source d))%Z
  /\ In (type (build_source d)) [IPADDR; DOMAIN; OSS]
  /\ (forall ip, content (build_source d) = Some ip ->
                 quad_text (R := cpython311) ip).
Proof.
  refine (build_source_ok (R := cpython311) [utf8 "回源端口 0"]
            (set_source_port 0 empty_draft) _).
  vm_compute. reflexivity.
Defined.

Lemma scan_last_domain_witness :
  domain_name
    {| domain_name := Some (utf8 "b.xiangyuncdn.com");
       cdn_type := Some LIVE; source_type := None; source_ip := None;
       source_port := None; cache_rules := [] |}
  = Some (strip (R := cpython311) (utf8 "b.xiangyuncdn.com")).
Proof.
  refine (scan_last_domain (R := cpython311)
            [utf8 "a.xiangyuncdn.com"] (utf8 "b.xiangyuncdn.com")
            [utf8 "加速类型 视音频直播"] empty_draft _ _ _ _).
  - vm_compute. reflexivity.
  - repeat constructor.
  - vm_compute. reflexivity.
Defined.

Lemma setup_domain_only_witness :
  exists name,
    let add :=
      AddCdnDomain {| add_domain_name := name;
                      add_sources := [ {| type := IPADDR;
                                          content := None;
                                          port := 80 |} ];
                      add_cdn_type := WEB |} in
    setup_cdn_with_text (R := cpython311) accepting
      (utf8 "请添加域名" ++ NEWLINE :: utf8 "demo.xiangyuncdn.com") [] =
      (if accepting [] add
       then Ok (MSG_DONE ++ MSG_DOMAIN ++ name ++ MSG_ADDED)
       else Raise ServiceFailure,
       [] ++ [add]).
Proof.
  refine (setup_domain_only (R := cpython311) accepting
            (utf8 "请添加域名" ++ NEWLINE :: utf8 "demo.xiangyuncdn.com")
            [] _ _).
  - vm_compute.
    constructor; [right; reflexivity|].
    constructor; [left; reflexivity|constructor].
  - vm_compute. apply Exists_cons_tl, Exists_cons_hd. reflexivity.
Defined.

Lemma setup_blank_witness :
  lines_of (R := cpython311) [SPACE; NEWLINE; 9; 12288] = []
  /\ setup_cdn_with_text (R := cpython311) accepting
       [SPACE; NEWLINE; 9; 12288] []
     = (Ok MSG_NO_DOMAIN, []).
Proof.
  refine (setup_blank (R := cpython311) accepting
            [SPACE; NEWLINE; 9; 12288] [] _).
  repeat constructor.
Defined.
